(** * AudioAnalyzer: a shallow embedding of [audio_analyzer/AudioAnalyzer.py]

    The class is configuration glue over Essentia and TensorFlow graphs.
    Everything the module delegates (audio decoding, metadata parsing,
    [open], [json.load], the three predictor algorithms) is collected in a
    record [World] of deterministic functions; the module's own code (the
    configuration lookup, the two [match] dispatches, the aggregation rule
    and the metadata loop) is translated statement by statement into a small
    state-and-exception monad.

    Numbers: the finite floating-point values held by the prediction arrays
    are represented by the rationals they denote ([Q]); the non-finite values
    that the module's own arithmetic can create, the quotients by a zero
    length, are [NaN] and [Inf].  Rounding of sums and quotients is not
    represented. *)

From Stdlib Require Import ZArith QArith List String Ascii Lia Lqa Bool.
From stdpp Require Import base option gmap strings.

Import ListNotations.
Local Open Scope string_scope.
Local Open Scope list_scope.

(* ===================================================================== *)
(** ** Python values, exceptions and outcomes *)
(* ===================================================================== *)

(** What [json.load] can produce, as far as this module distinguishes it:
    a string, an object (a Python [dict] with string keys), or anything else
    (number, boolean, [None], list), which can be neither subscripted by a
    string nor equal to a string literal. *)
#[warnings="-register-all"]
Inductive pyval : Type :=
| PStr (s : string)
| PDict (d : gmap string pyval)
| POther (tag : nat).

(** The exceptions that the module's own statements or its collaborators can
    raise.  [External] stands for whatever a collaborator raises natively. *)
Inductive exn : Type :=
| OSError (path : string)
| JSONDecodeError
| KeyError (key : string)
| TypeError
| IndexError
| UnboundLocalError (name : string)
| AttributeError (name : string)
| External (what : string).

Inductive outcome (A : Type) : Type :=
| Ret (a : A)
| Raise (e : exn).
Arguments Ret {A} a.
Arguments Raise {A} e.

Definition raises {A} (o : outcome A) : Prop :=
  match o with Raise _ => True | Ret _ => False end.

Definition returns {A} (o : outcome A) : Prop :=
  match o with Ret _ => True | Raise _ => False end.

(** IEEE results of the module's own divisions. *)
Inductive pyfloat : Type :=
| Finite (q : Q)
| Inf (positive : bool)
| NaN.

(** A two-dimensional [np.ndarray]: [ncols] is [shape[1]], the rows are the
    per-segment prediction vectors ([len(predictions)] is their number). *)
Record ndarray : Type := mkArray {
  ncols : nat;
  rows : list (list Q)
}.

Definition rectangular (P : ndarray) : Prop :=
  Forall (fun r => length r = ncols P) (rows P).

(** The value of [calculate_prediction_metric]: a tuple, a float, or the
    implicit [None] of a function body that ends without [return]. *)
Inductive metric : Type :=
| MTuple (t : list pyfloat)
| MFloat (r : pyfloat)
| MNone.

Definition audio : Type := list Q.
Definition embeddings : Type := list (list Q).

(** The metadata pool ([MetadataReader(...)()[7]]): descriptor names in the
    order [descriptorNames()] lists them, each with its list of values. *)
Definition pool : Type := list (string * list string).

(* ===================================================================== *)
(** ** The collaborators *)
(* ===================================================================== *)

Record World : Type := mkWorld {
  (** [MonoLoader(filename=, sampleRate=, resampleQuality=)()] *)
  MonoLoader : string -> Z -> Z -> outcome audio;
  (** [MetadataReader(filename=)()[7]] *)
  MetadataReader : string -> outcome pool;
  (** [open(path, mode)] followed by reading the text *)
  open_file : string -> string -> outcome string;
  (** [json.load] on the text *)
  json_load : string -> outcome pyval;
  (** [str()] of a value that is not a string, as an f-string renders it *)
  render : pyval -> string;
  (** [TensorflowPredictMusiCNN(graphFilename=, output=)], then its call *)
  TensorflowPredictMusiCNN : string -> string -> outcome (audio -> outcome embeddings);
  (** [TensorflowPredictEffnetDiscogs(graphFilename=, output=)] *)
  TensorflowPredictEffnetDiscogs : string -> string -> outcome (audio -> outcome embeddings);
  (** [TensorflowPredict2D(graphFilename=, output=)] *)
  TensorflowPredict2D : string -> string -> outcome (embeddings -> outcome ndarray)
}.

(** Calls that leave the process, in the order they happen (latest first). *)
Inductive event : Type :=
| EvMonoLoader (filename : string) (sampleRate resampleQuality : Z)
| EvMetadataReader (filename : string)
| EvOpen (path mode : string)
| EvMusiCNN (graph output : string)
| EvEffnetDiscogs (graph output : string)
| EvPredict2D (graph output : string)
| EvEmbed (input : audio)
| EvPredict (input : embeddings).

(** The instance attributes; an attribute not yet assigned is [None]. *)
Record analyzer : Type := mkAnalyzer {
  __file_path : option string;
  __model_path : option string;
  __audio : option audio
}.

Record state : Type := mkState {
  self : analyzer;
  log : list event
}.

(* ===================================================================== *)
(** ** The monad of statements *)
(* ===================================================================== *)

Definition M (A : Type) : Type := state -> outcome A * state.

Definition ret {A} (a : A) : M A := fun s => (Ret a, s).

Definition raise {A} (e : exn) : M A := fun s => (Raise e, s).

Definition bind {A B} (m : M A) (k : A -> M B) : M B :=
  fun s => match m s with
           | (Ret a, s') => k a s'
           | (Raise e, s') => (Raise e, s')
           end.

Definition lift {A} (o : outcome A) : M A := fun s => (o, s).

Definition emit (e : event) : M unit :=
  fun s => (Ret tt, mkState (self s) (e :: log s)).

Definition get_self : M analyzer := fun s => (Ret (self s), s).

Definition set_self (a : analyzer) : M unit :=
  fun s => (Ret tt, mkState a (log s)).

Declare Scope py_scope.
Delimit Scope py_scope with py.
Notation "x <- m ;; k" := (bind m (fun x => k))
  (at level 100, m at next level, right associativity) : py_scope.
Notation "m ;;; k" := (bind m (fun _ => k))
  (at level 100, right associativity) : py_scope.
Local Open Scope py_scope.

(** Reading an attribute: [AttributeError] while it is unassigned. *)
Definition getattr {A} (name : string) (field : analyzer -> option A) : M A :=
  a <- get_self ;;
  match field a with
  | Some v => ret v
  | None => raise (AttributeError name)
  end.

(* ===================================================================== *)
(** ** Built-in operations the module uses *)
(* ===================================================================== *)

(** [v[key]] for a string [key]: only a [dict] can be subscripted that way. *)
Definition py_getitem (v : pyval) (key : string) : outcome pyval :=
  match v with
  | PDict d =>
      match d !! key with
      | Some x => Ret x
      | None => Raise (KeyError key)
      end
  | _ => Raise TypeError
  end.

(** A literal pattern [case "lit":] matches by [==]. *)
Definition py_eq_str (v : pyval) (lit : string) : bool :=
  match v with
  | PStr s => String.eqb s lit
  | _ => false
  end.

(** [f"{prefix}{v}"] *)
Definition fstring (w : World) (prefix : string) (v : pyval) : string :=
  match v with
  | PStr s => prefix ++ s
  | _ => prefix ++ render w v
  end.

(** [s.split(sep)] for a one-character separator. *)
Fixpoint split (sep : ascii) (s : string) : list string :=
  match s with
  | EmptyString => [EmptyString]
  | String c s' =>
      if Ascii.eqb c sep then EmptyString :: split sep s'
      else match split sep s' with
           | [] => [String c EmptyString]
           | h :: t => String c h :: t
           end
  end.

(** [l[-1]] *)
Fixpoint py_last {A} (l : list A) : outcome A :=
  match l with
  | [] => Raise IndexError
  | [x] => Ret x
  | _ :: t => py_last t
  end.

(** [l[0]] *)
Definition py_first {A} (l : list A) : outcome A :=
  match l with
  | [] => Raise IndexError
  | x :: _ => Ret x
  end.

Definition descriptorNames (p : pool) : list string := map fst p.

(** [metadata_pool[descriptor]] *)
Fixpoint pool_getitem (p : pool) (descriptor : string) : outcome (list string) :=
  match p with
  | [] => Raise (KeyError descriptor)
  | (name, values) :: rest =>
      if String.eqb name descriptor then Ret values
      else pool_getitem rest descriptor
  end.

(** An index into an axis of length [n], negative indices counted from the
    end, [IndexError] outside [-n, n). *)
Definition normalize_index (n : nat) (i : Z) : outcome nat :=
  if ((0 <=? i) && (i <? Z.of_nat n))%Z then Ret (Z.to_nat i)
  else if ((- Z.of_nat n <=? i) && (i <? 0))%Z then Ret (Z.to_nat (i + Z.of_nat n))
  else Raise IndexError.

(** [predictions[:, category]] *)
Definition column (P : ndarray) (category : Z) : outcome (list Q) :=
  match normalize_index (ncols P) category with
  | Ret j => Ret (map (fun r => nth j r 0%Q) (rows P))
  | Raise e => Raise e
  end.

(** [x > 0.5], elementwise *)
Definition gt_half (x : Q) : bool := negb (Qle_bool x (1 # 2)).

(** [np.sum] of a boolean vector *)
Definition np_sum_bool (bs : list bool) : Z :=
  fold_left (fun acc (b : bool) => if b then (acc + 1)%Z else acc) bs 0%Z.

(** [x / n] in IEEE arithmetic, [n] a length *)
Definition true_divide (x : Q) (n : nat) : pyfloat :=
  match n with
  | O => if Qeq_bool x 0 then NaN else Inf (negb (Qle_bool x 0))
  | S _ => Finite (x / inject_Z (Z.of_nat n))
  end.

Definition vec_add (u v : list Q) : list Q :=
  map (fun p => (fst p + snd p)%Q) (combine u v).

(** [np.mean(P, axis=0)]: the rows are summed into one vector of [ncols]
    entries, and each entry is divided by the number of rows. *)
Definition np_sum_axis0 (P : ndarray) : list Q :=
  fold_left vec_add (rows P) (repeat 0%Q (ncols P)).

Definition np_mean_axis0 (P : ndarray) : list pyfloat :=
  map (fun x => true_divide x (length (rows P))) (np_sum_axis0 P).

(* ===================================================================== *)
(** ** class AudioAnalyzer *)
(* ===================================================================== *)

Definition config_path : string := "./data/audio_features_config.json".

Definition set_file_path (v : string) : M unit :=
  a <- get_self ;;
  set_self (mkAnalyzer (Some v) (__model_path a) (__audio a)).

Definition set_model_path (v : string) : M unit :=
  a <- get_self ;;
  set_self (mkAnalyzer (__file_path a) (Some v) (__audio a)).

Definition set_audio (v : audio) : M unit :=
  a <- get_self ;;
  set_self (mkAnalyzer (__file_path a) (__model_path a) (Some v)).

Section Methods.

Context (w : World).

(** [__get_essentia_audio] *)
Definition __get_essentia_audio : M audio :=
  path <- getattr "__file_path" __file_path ;;
  emit (EvMonoLoader path 16000 4) ;;;
  lift (MonoLoader w path 16000 4).

(** [__init__] *)
Definition __init__ (file_path : string) : M unit :=
  set_file_path file_path ;;;
  set_model_path "./models/" ;;;
  loaded <- __get_essentia_audio ;;
  set_audio loaded.

(** The [file_path] property *)
Definition file_path : M string :=
  getattr "__file_path" __file_path.

(** The loop of [get_metadata], over the descriptor names still to visit. *)
Fixpoint metadata_loop (metadata_pool : pool) (names : list string)
    (metadata : gmap string string) : M (gmap string string) :=
  match names with
  | [] => ret metadata
  | descriptor :: rest =>
      key <- lift (py_last (split "." descriptor)) ;;
      values <- lift (pool_getitem metadata_pool descriptor) ;;
      value <- lift (py_first values) ;;
      metadata_loop metadata_pool rest (<[key := value]> metadata)
  end.

(** [get_metadata] *)
Definition get_metadata : M (gmap string string) :=
  path <- getattr "__file_path" __file_path ;;
  emit (EvMetadataReader path) ;;;
  metadata_pool <- lift (MetadataReader w path) ;;
  metadata_loop metadata_pool (descriptorNames metadata_pool) ∅.

(** [__get_audio_feature_config] *)
Definition __get_audio_feature_config (audio_feature : string) : M pyval :=
  emit (EvOpen config_path "r") ;;;
  text <- lift (open_file w config_path "r") ;;
  parameters <- lift (json_load w text) ;;
  lift (py_getitem parameters audio_feature).

(** First [match] of [calculate_predictions]: binds [embedding_model] in
    the two listed cases and leaves it unbound otherwise. *)
Definition select_embedding_model (audio_config model : pyval)
    : M (option (audio -> outcome embeddings)) :=
  if py_eq_str model "musicnn" then
    model_path <- getattr "__model_path" __model_path ;;
    filename <- lift (py_getitem audio_config "embedding_graph_filename") ;;
    emit (EvMusiCNN (fstring w model_path filename) "model/dense/BiasAdd") ;;;
    embedding_model <- lift (TensorflowPredictMusiCNN w
                               (fstring w model_path filename) "model/dense/BiasAdd") ;;
    ret (Some embedding_model)
  else if py_eq_str model "effnet" then
    model_path <- getattr "__model_path" __model_path ;;
    filename <- lift (py_getitem audio_config "embedding_graph_filename") ;;
    emit (EvEffnetDiscogs (fstring w model_path filename) "PartitionedCall:1") ;;;
    embedding_model <- lift (TensorflowPredictEffnetDiscogs w
                               (fstring w model_path filename) "PartitionedCall:1") ;;
    ret (Some embedding_model)
  else ret None.

(** Second [match] of [calculate_predictions]. *)
Definition select_prediction_model (audio_config algorithm : pyval)
    : M (option (embeddings -> outcome ndarray)) :=
  if py_eq_str algorithm "regression" then
    model_path <- getattr "__model_path" __model_path ;;
    filename <- lift (py_getitem audio_config "prediction_graph_filename") ;;
    emit (EvPredict2D (fstring w model_path filename) "model/Identity") ;;;
    prediction_model <- lift (TensorflowPredict2D w
                                (fstring w model_path filename) "model/Identity") ;;
    ret (Some prediction_model)
  else if py_eq_str algorithm "classifier" then
    model_path <- getattr "__model_path" __model_path ;;
    filename <- lift (py_getitem audio_config "prediction_graph_filename") ;;
    emit (EvPredict2D (fstring w model_path filename) "model/Softmax") ;;;
    prediction_model <- lift (TensorflowPredict2D w
                                (fstring w model_path filename) "model/Softmax") ;;
    ret (Some prediction_model)
  else ret None.

(** Reading a local variable that a [match] may have left unbound. *)
Definition local {A} (name : string) (v : option A) : M A :=
  match v with
  | Some x => ret x
  | None => raise (UnboundLocalError name)
  end.

(** [calculate_predictions] *)
Definition calculate_predictions (audio_feature : string) : M ndarray :=
  audio_config <- __get_audio_feature_config audio_feature ;;
  model <- lift (py_getitem audio_config "model") ;;
  embedding_model_var <- select_embedding_model audio_config model ;;
  embedding_model <- local "embedding_model" embedding_model_var ;;
  samples <- getattr "__audio" __audio ;;
  emit (EvEmbed samples) ;;;
  embeddings <- lift (embedding_model samples) ;;
  algorithm <- lift (py_getitem audio_config "algorithm") ;;
  prediction_model_var <- select_prediction_model audio_config algorithm ;;
  prediction_model <- local "prediction_model" prediction_model_var ;;
  emit (EvPredict embeddings) ;;;
  lift (prediction_model embeddings).

(** The final [match] of [calculate_prediction_metric]. *)
Definition aggregate (algorithm : pyval) (predictions : ndarray) (category : Z)
    : outcome metric :=
  if py_eq_str algorithm "regression" then
    Ret (MTuple (np_mean_axis0 predictions))
  else if py_eq_str algorithm "classifier" then
    match column predictions category with
    | Ret col =>
        let count := np_sum_bool (map gt_half col) in
        Ret (MFloat (true_divide (inject_Z count) (length (rows predictions))))
    | Raise e => Raise e
    end
  else Ret MNone.

(** [calculate_prediction_metric] *)
Definition calculate_prediction_metric (audio_feature : string) (category : Z)
    : M metric :=
  audio_config <- __get_audio_feature_config audio_feature ;;
  predictions <- calculate_predictions audio_feature ;;
  algorithm <- lift (py_getitem audio_config "algorithm") ;;
  lift (aggregate algorithm predictions category).

End Methods.

(** A fresh object, before [__init__] has run. *)
Definition blank : analyzer := mkAnalyzer None None None.

Definition start : state := mkState blank [].

(** [AudioAnalyzer(file_path)] *)
Definition construct (w : World) (path : string) : outcome unit * state :=
  __init__ w path start.

(* ===================================================================== *)
(** ** Concrete collaborators, used to exercise the methods *)
(* ===================================================================== *)

Module Demo.

Definition fields (model algorithm embedding prediction : string)
    : gmap string pyval :=
  <["model" := PStr model]>
  (<["algorithm" := PStr algorithm]>
  (<["embedding_graph_filename" := PStr embedding]>
  (<["prediction_graph_filename" := PStr prediction]> ∅))).

Definition entry (model algorithm embedding prediction : string) : pyval :=
  PDict (fields model algorithm embedding prediction).

(** A configuration with a classifier on effnet embeddings, a regression on
    musicnn embeddings, and an entry naming a model the module does not know. *)
Definition table : gmap string pyval :=
  <["danceability" :=
      entry "effnet" "classifier" "discogs-effnet-bs64-1.pb"
            "danceability-discogs-effnet-1.pb"]>
  (<["arousal_valence" :=
      entry "musicnn" "regression" "msd-musicnn-1.pb"
            "deam-msd-musicnn-2.pb"]>
  (<["timbre" :=
      entry "vggish" "classifier" "audioset-vggish-3.pb"
            "nsynth_bright_dark-audioset-vggish-1.pb"]> ∅)).

Definition parameters : pyval := PDict table.

Definition samples : audio := [0; 1 # 4; -1 # 4]%Q.

Definition softmax_out : ndarray :=
  mkArray 2 [[9 # 10; 1 # 10]; [3 # 10; 7 # 10]; [6 # 10; 4 # 10]; [1 # 2; 1 # 2]]%Q.

Definition identity_out : ndarray :=
  mkArray 2 [[5; 3]; [6; 4]; [7; 5 # 2]]%Q.

Definition tags : pool :=
  [("metadata.tags.album", ["The Wildest!"; "ignored"]);
   ("metadata.tags.title", ["Jump, Jive, an' Wail"]);
   ("extra.album", ["Reissue"]);
   ("bitrate", ["320"])].

Definition world : World := {|
  MonoLoader := fun _ _ _ => Ret samples;
  MetadataReader := fun _ => Ret tags;
  open_file := fun path _ =>
    if String.eqb path "./data/audio_features_config.json" then Ret "{}"
    else Raise (OSError path);
  json_load := fun _ => Ret parameters;
  render := fun _ => "";
  TensorflowPredictMusiCNN := fun _ _ => Ret (fun a => Ret [a]);
  TensorflowPredictEffnetDiscogs := fun _ _ => Ret (fun a => Ret [a; a]);
  TensorflowPredict2D := fun _ output =>
    Ret (fun _ => if String.eqb output "model/Softmax" then Ret softmax_out
                  else Ret identity_out)
|}.

Definition ready : state := snd (construct world "song.mp3").

End Demo.


(* ===================================================================== *)
(** ** Vocabulary of the properties *)
(* ===================================================================== *)

(** A computation is [readonly] when it leaves the attributes as they were
    and its outcome is determined by the attributes alone (not by the log). *)
Definition readonly {A} (m : M A) : Prop :=
  forall s, self (snd (m s)) = self s /\
            forall s', self s' = self s -> fst (m s') = fst (m s).

(** What the three statements of [__get_audio_feature_config] compute. *)
Definition config_lookup (w : World) (audio_feature : string) : outcome pyval :=
  match open_file w config_path "r" with
  | Ret text =>
      match json_load w text with
      | Ret parameters => py_getitem parameters audio_feature
      | Raise e => Raise e
      end
  | Raise e => Raise e
  end.

(** An object on which [__init__] has completed. *)
Definition initialized (a : analyzer) (path : string) (samples : audio) : Prop :=
  a = mkAnalyzer (Some path) (Some "./models/") (Some samples).

(** A category index that numpy accepts for an axis of [ncols P] entries,
    and the column it denotes. *)
Definition in_bounds (P : ndarray) (category : Z) : Prop :=
  (- Z.of_nat (ncols P) <= category < Z.of_nat (ncols P))%Z.

Definition resolved_column (P : ndarray) (category : Z) : nat :=
  Z.to_nat (if (category <? 0)%Z then category + Z.of_nat (ncols P) else category).

(** Number of segments whose prediction in column [j] is strictly above 1/2. *)
Definition segments_above_half (P : ndarray) (j : nat) : nat :=
  length (List.filter
            (fun r => if Qlt_le_dec (1 # 2) (nth j r 0%Q) then true else false)
            (rows P)).

(** Sum of column [j] over all segments. *)
Definition column_sum (P : ndarray) (j : nat) : Q :=
  fold_right Qplus 0%Q (map (fun r => nth j r 0%Q) (rows P)).

(** The public operations, and a client that calls them one after another,
    going on after an exception as a caller with [try]/[except] would. *)
Inductive call : Type :=
| CallFilePath
| CallGetMetadata
| CallPredictions (audio_feature : string)
| CallMetric (audio_feature : string) (category : Z).

Definition perform (w : World) (c : call) (s : state) : state :=
  match c with
  | CallFilePath => snd (file_path s)
  | CallGetMetadata => snd (get_metadata w s)
  | CallPredictions f => snd (calculate_predictions w f s)
  | CallMetric f cat => snd (calculate_prediction_metric w f cat s)
  end.

Definition run_calls (w : World) (cs : list call) (s : state) : state :=
  fold_left (fun st c => perform w c st) cs s.

Definition is_load (e : event) : bool :=
  match e with EvMonoLoader _ _ _ => true | _ => false end.

(** How many times the audio file was decoded. *)
Definition loads (l : list event) : nat := length (List.filter is_load l).

(** The inputs handed to embedding models. *)
Definition embed_inputs (l : list event) : list audio :=
  flat_map (fun e => match e with EvEmbed a => [a] | _ => [] end) l.

(** A computation [keeps_audio] when it leaves the attributes as they were,
    only adds to the log, never decodes the audio file, and hands embedding
    models nothing but the [__audio] attribute. *)
Definition keeps_audio {A} (m : M A) : Prop :=
  forall s,
    self (snd (m s)) = self s /\
    exists new,
      log (snd (m s)) = new ++ log s /\
      loads new = 0 /\
      Forall (fun a => __audio (self s) = Some a) (embed_inputs new).

(** The state of an analyzer built from [path] whose decoding gave
    [samples]: the file was decoded once so far, and every embedding model
    was given [samples]. *)
Definition loaded_once (path : string) (samples : audio) (s : state) : Prop :=
  initialized (self s) path samples /\
  loads (log s) = 1 /\
  Forall (fun a => a = samples) (embed_inputs (log s)).

(** Sequencing of outcomes, to spell out a chain of collaborator calls. *)
Definition and_then {A B} (o : outcome A) (k : A -> outcome B) : outcome B :=
  match o with
  | Ret a => k a
  | Raise e => Raise e
  end.

(** The characters of a string. *)
Fixpoint chars (s : string) : list ascii :=
  match s with
  | EmptyString => []
  | String c s' => c :: chars s'
  end.

(* ===================================================================== *)
(** ** Vocabulary of the further properties *)
(* ===================================================================== *)

Definition is_open (e : event) : bool :=
  match e with EvOpen _ _ => true | _ => false end.

(** How many times a file was opened. *)
Definition opens (l : list event) : nat := length (List.filter is_open l).

(** A computation [emits] only events that satisfy [Q], and only adds
    them to the log. *)
Definition emits (Q : event -> Prop) {A} (m : M A) : Prop :=
  forall s, exists new, log (snd (m s)) = new ++ log s /\ Forall Q new.

(** What a public call hands back, whatever the call. *)
Inductive value : Type :=
| VPath (p : string)
| VMetadata (m : gmap string string)
| VPredictions (P : ndarray)
| VMetric (r : metric).

Definition map_outcome {A B} (g : A -> B) (o : outcome A) : outcome B :=
  match o with
  | Ret a => Ret (g a)
  | Raise e => Raise e
  end.

Definition answer (w : World) (c : call) (s : state) : outcome value :=
  match c with
  | CallFilePath => map_outcome VPath (fst (file_path s))
  | CallGetMetadata => map_outcome VMetadata (fst (get_metadata w s))
  | CallPredictions f => map_outcome VPredictions (fst (calculate_predictions w f s))
  | CallMetric f cat => map_outcome VMetric (fst (calculate_prediction_metric w f cat s))
  end.

(** A two-class softmax output: every row is a pair that sums to one. *)
Definition softmax_pairs (P : ndarray) : Prop :=
  Forall (fun r => exists x y, r = [x; y] /\ Qeq (x + y) 1) (rows P).

(** A second set of collaborators: the configuration has an entry whose
    algorithm no [case] lists, the EffnetDiscogs graph cannot be loaded, and
    the metadata pool of one file has a descriptor without any value. *)
Module Studio.

Definition table : gmap string pyval :=
  <["mood" := Demo.entry "musicnn" "ranking" "msd-musicnn-1.pb"
                         "mood_happy-msd-musicnn-1.pb"]> Demo.table.

Definition tags : pool :=
  [("metadata.tags.album", ["The Wildest!"]);
   ("metadata.tags.comment", []);
   ("metadata.tags.title", ["Jump, Jive, an' Wail"])].

Definition live_tags : pool :=
  [("metadata.tags.album", ["Live at the Sahara"]);
   ("metadata.tags.title", ["Just a Gigolo"; "I Ain't Got Nobody"]);
   ("bitrate", ["256"])].

Definition world : World := {|
  MonoLoader := MonoLoader Demo.world;
  MetadataReader := fun path =>
    if String.eqb path "song.mp3" then Ret tags else Ret live_tags;
  open_file := open_file Demo.world;
  json_load := fun _ => Ret (PDict table);
  render := render Demo.world;
  TensorflowPredictMusiCNN := TensorflowPredictMusiCNN Demo.world;
  TensorflowPredictEffnetDiscogs := fun graph _ => Raise (External graph);
  TensorflowPredict2D := TensorflowPredict2D Demo.world
|}.

Definition ready : state := snd (construct world "song.mp3").

Definition live : state := snd (construct world "live.flac").

End Studio.

(* ===================================================================== *)
(** ** Methods read the object and never write it *)
(* ===================================================================== *)

Create HintDb readonly_db.

Lemma readonly_ret {A} (a : A) : readonly (ret a).
Proof. intros s; split; [reflexivity | intros; reflexivity]. Qed.

Lemma readonly_raise {A} (e : exn) : readonly (@raise A e).
Proof. intros s; split; [reflexivity | intros; reflexivity]. Qed.

Lemma readonly_lift {A} (o : outcome A) : readonly (lift o).
Proof. intros s; split; [reflexivity | intros; reflexivity]. Qed.

Lemma readonly_emit (e : event) : readonly (emit e).
Proof. intros s; split; [reflexivity | intros; reflexivity]. Qed.

Lemma readonly_get_self : readonly get_self.
Proof. intros s; split; [reflexivity | intros s' H; simpl; now rewrite H]. Qed.

Lemma readonly_bind {A B} (m : M A) (k : A -> M B) :
  readonly m -> (forall a, readonly (k a)) -> readonly (bind m k).
Proof.
  intros Hm Hk s. unfold bind.
  destruct (Hm s) as [Hs Hdet]. split.
  - destruct (m s) as [[a | e] s1]; simpl in *.
    + destruct (Hk a s1) as [H1 _]. congruence.
    + exact Hs.
  - intros s' Heq. specialize (Hdet s' Heq).
    destruct (Hm s') as [Hs' _].
    destruct (m s) as [[a | e] s1], (m s') as [[a' | e'] s1'];
      simpl in *; try congruence.
    injection Hdet as ->.
    destruct (Hk a s1) as [_ Hk1]. apply Hk1. congruence.
Qed.

Lemma readonly_getattr {A} name (field : analyzer -> option A) :
  readonly (getattr name field).
Proof.
  unfold getattr. apply readonly_bind; [apply readonly_get_self |].
  intros a. destruct (field a); [apply readonly_ret | apply readonly_raise].
Qed.

Lemma readonly_local {A} name (v : option A) : readonly (local name v).
Proof. destruct v; [apply readonly_ret | apply readonly_raise]. Qed.

#[export] Hint Resolve readonly_ret readonly_raise readonly_lift readonly_emit
  readonly_get_self readonly_getattr readonly_local : readonly_db.

Ltac readonly_tac :=
  repeat first
    [ apply readonly_bind; [| intros ?]
    | solve [auto with readonly_db]
    | match goal with |- readonly (if ?b then _ else _) => destruct b end
    | match goal with |- readonly (match ?o with _ => _ end) => destruct o end ].

Lemma readonly_config w f : readonly (__get_audio_feature_config w f).
Proof. unfold __get_audio_feature_config. readonly_tac. Qed.

Lemma readonly_select_embedding w cfg model :
  readonly (select_embedding_model w cfg model).
Proof. unfold select_embedding_model. readonly_tac. Qed.

Lemma readonly_select_prediction w cfg alg :
  readonly (select_prediction_model w cfg alg).
Proof. unfold select_prediction_model. readonly_tac. Qed.

#[export] Hint Resolve readonly_config readonly_select_embedding
  readonly_select_prediction : readonly_db.

Lemma readonly_predictions w f : readonly (calculate_predictions w f).
Proof. unfold calculate_predictions. readonly_tac. Qed.

#[export] Hint Resolve readonly_predictions : readonly_db.

Lemma readonly_metric w f c : readonly (calculate_prediction_metric w f c).
Proof. unfold calculate_prediction_metric. readonly_tac. Qed.

Lemma readonly_metadata_loop p names acc : readonly (metadata_loop p names acc).
Proof.
  revert acc. induction names as [| d rest IH]; intros acc; simpl.
  - apply readonly_ret.
  - readonly_tac.
Qed.

#[export] Hint Resolve readonly_metadata_loop : readonly_db.

Lemma readonly_get_metadata w : readonly (get_metadata w).
Proof. unfold get_metadata. readonly_tac. Qed.

Lemma readonly_file_path : readonly file_path.
Proof. unfold file_path. readonly_tac. Qed.

(* ===================================================================== *)
(** ** Running the configuration lookup and the metric *)
(* ===================================================================== *)

Lemma config_run w f s :
  __get_audio_feature_config w f s =
  (config_lookup w f, mkState (self s) (EvOpen config_path "r" :: log s)).
Proof.
  unfold __get_audio_feature_config, config_lookup, bind, emit, lift; simpl.
  destruct (open_file w config_path "r") as [text | e]; [| reflexivity].
  destruct (json_load w text) as [p | e]; reflexivity.
Qed.

Lemma predictions_after_config w f s :
  fst (calculate_predictions w f (snd (__get_audio_feature_config w f s))) =
  fst (calculate_predictions w f s).
Proof.
  destruct (readonly_predictions w f s) as [_ H]. apply H.
  rewrite config_run. reflexivity.
Qed.

(** The metric is the aggregation of the predictions, whenever the lookup
    and the predictions succeed. *)
Lemma metric_run w f cat s cfg P alg :
  config_lookup w f = Ret cfg ->
  fst (calculate_predictions w f s) = Ret P ->
  py_getitem cfg "algorithm" = Ret alg ->
  fst (calculate_prediction_metric w f cat s) = aggregate alg P cat.
Proof.
  intros Hcfg HP Halg.
  unfold calculate_prediction_metric, bind.
  pose proof (predictions_after_config w f s) as Hsame.
  rewrite config_run in *. rewrite Hcfg. simpl in Hsame.
  rewrite HP in Hsame.
  destruct (calculate_predictions w f (mkState _ _)) as [[P' | e] s2];
    simpl in Hsame; [| discriminate].
  injection Hsame as ->. unfold lift. rewrite Halg. reflexivity.
Qed.

(* ===================================================================== *)
(** ** The classifier branch: a thresholded ratio *)
(* ===================================================================== *)

Lemma gt_half_spec x :
  gt_half x = if Qlt_le_dec (1 # 2) x then true else false.
Proof.
  unfold gt_half. destruct (Qlt_le_dec (1 # 2) x) as [Hlt | Hle].
  - destruct (Qle_bool x (1 # 2)) eqn:E; [| reflexivity].
    apply Qle_bool_iff in E. exfalso. exact (Qlt_not_le _ _ Hlt E).
  - apply Qle_bool_iff in Hle. rewrite Hle. reflexivity.
Qed.

Lemma gt_half_lt x : gt_half x = true <-> (1 # 2 < x)%Q.
Proof.
  rewrite gt_half_spec. destruct (Qlt_le_dec (1 # 2) x) as [Hlt | Hle].
  - tauto.
  - split; [discriminate | intros H; exfalso; exact (Qlt_not_le _ _ H Hle)].
Qed.

Lemma np_sum_bool_from bs acc :
  fold_left (fun a (b : bool) => if b then (a + 1)%Z else a) bs acc =
  (acc + Z.of_nat (length (List.filter (fun b => b) bs)))%Z.
Proof.
  revert acc. induction bs as [| b bs IH]; intros acc; simpl.
  - lia.
  - rewrite IH. destruct b; simpl; lia.
Qed.

Lemma np_sum_bool_count bs :
  np_sum_bool bs = Z.of_nat (length (List.filter (fun b => b) bs)).
Proof. unfold np_sum_bool. rewrite np_sum_bool_from. lia. Qed.

Lemma filter_map_length {A B} (g : A -> B) (p : B -> bool) l :
  length (List.filter p (map g l)) = length (List.filter (fun a => p (g a)) l).
Proof.
  induction l as [| a l IH]; simpl; [reflexivity |].
  destruct (p (g a)); simpl; congruence.
Qed.

Lemma filter_length_le {A} (p : A -> bool) l :
  length (List.filter p l) <= length l.
Proof.
  induction l as [| a l IH]; simpl; [lia |].
  destruct (p a); simpl; lia.
Qed.

Lemma normalize_in_bounds P cat :
  in_bounds P cat ->
  normalize_index (ncols P) cat = Ret (resolved_column P cat).
Proof.
  unfold in_bounds, normalize_index, resolved_column. intros [Hlo Hhi].
  destruct (Z.ltb_spec cat 0) as [Hneg | Hpos].
  - replace (0 <=? cat)%Z with false by (symmetry; apply Z.leb_gt; lia).
    simpl.
    replace (- Z.of_nat (ncols P) <=? cat)%Z with true
      by (symmetry; apply Z.leb_le; lia).
    reflexivity.
  - replace (0 <=? cat)%Z with true by (symmetry; apply Z.leb_le; lia).
    replace (cat <? Z.of_nat (ncols P))%Z with true
      by (symmetry; apply Z.ltb_lt; lia).
    reflexivity.
Qed.

Lemma aggregate_classifier P cat :
  in_bounds P cat ->
  aggregate (PStr "classifier") P cat =
  Ret (MFloat (true_divide
                 (inject_Z (Z.of_nat (segments_above_half P (resolved_column P cat))))
                 (length (rows P)))).
Proof.
  intros Hin. unfold aggregate, column. simpl py_eq_str. cbv iota.
  rewrite (normalize_in_bounds _ _ Hin).
  rewrite np_sum_bool_count, filter_map_length, filter_map_length.
  unfold segments_above_half.
  erewrite filter_ext; [reflexivity | intros r; apply gt_half_spec].
Qed.

Lemma true_divide_finite (n : Z) (total : nat) :
  total <> 0 ->
  exists q, true_divide (inject_Z n) total = Finite q /\
            Qeq q (n # Pos.of_nat total).
Proof.
  intros Hpos. destruct total as [| k]; [congruence |].
  eexists; split; [reflexivity |].
  rewrite (Qmake_Qdiv n (Pos.of_nat (S k))).
  replace (Z.pos (Pos.of_nat (S k))) with (Z.of_nat (S k)) by lia.
  reflexivity.
Qed.



Lemma true_divide_unit (count : Z) (total : nat) :
  (0 <= count <= Z.of_nat total)%Z -> total <> 0 ->
  exists q, true_divide (inject_Z count) total = Finite q /\
            (0 <= q)%Q /\ (q <= 1)%Q.
Proof.
  intros [Hlo Hhi] Hpos. destruct total as [| k]; [congruence |].
  eexists; split; [reflexivity |].
  assert (Hn : (0 < inject_Z (Z.of_nat (S k)))%Q)
    by (rewrite <- (Zlt_Qlt 0); lia).
  split.
  - apply Qle_shift_div_l; [exact Hn |].
    rewrite Qmult_0_l. rewrite <- (Zle_Qle 0). exact Hlo.
  - apply Qle_shift_div_r; [exact Hn |].
    rewrite Qmult_1_l. rewrite <- Zle_Qle. exact Hhi.
Qed.

Lemma segments_above_half_le P j :
  segments_above_half P j <= length (rows P).
Proof. apply filter_length_le. Qed.

(** C8.  On the classifier branch, with a category index in bounds: for a
    nonempty predictions array the returned ratio is a finite number in the
    closed interval from 0 to 1; for an empty one the unguarded division
    yields NaN, so nonemptiness is needed for the ratio to be a number. *)
Theorem classifier_ratio_in_unit_interval w f cat s cfg P :
  fst (__get_audio_feature_config w f s) = Ret cfg ->
  py_getitem cfg "algorithm" = Ret (PStr "classifier") ->
  fst (calculate_predictions w f s) = Ret P ->
  in_bounds P cat ->
  (rows P <> [] ->
   exists q, fst (calculate_prediction_metric w f cat s) = Ret (MFloat (Finite q)) /\
             (0 <= q)%Q /\ (q <= 1)%Q) /\
  (rows P = [] ->
   fst (calculate_prediction_metric w f cat s) = Ret (MFloat NaN)).
Proof.
  intros Hcfg Halg HP Hin.
  rewrite config_run in Hcfg. simpl in Hcfg.
  rewrite (metric_run w f cat s cfg P _ Hcfg HP Halg).
  rewrite (aggregate_classifier _ _ Hin). split.
  - intros Hne.
    destruct (true_divide_unit
                (Z.of_nat (segments_above_half P (resolved_column P cat)))
                (length (rows P))) as (q & Hq & Hb).
    + pose proof (segments_above_half_le P (resolved_column P cat)). lia.
    + destruct (rows P); [congruence | discriminate].
    + exists q. rewrite Hq. split; [reflexivity | exact Hb].
  - intros Hempty. unfold segments_above_half. rewrite Hempty. reflexivity.
Qed.

Lemma classifier_ratio_in_unit_interval_witness :
  exists q,
    fst (calculate_prediction_metric Demo.world "danceability" 0 Demo.ready) =
      Ret (MFloat (Finite q)) /\
    (0 <= q)%Q /\ (q <= 1)%Q.
Proof.
  refine (proj1 (classifier_ratio_in_unit_interval
                   Demo.world "danceability" 0 Demo.ready
                   (Demo.entry "effnet" "classifier" "discogs-effnet-bs64-1.pb"
                               "danceability-discogs-effnet-1.pb")
                   Demo.softmax_out _ _ _ _) _).
  - vm_compute. reflexivity.
  - vm_compute. reflexivity.
  - vm_compute. reflexivity.
  - unfold in_bounds. simpl. lia.
  - discriminate.
Defined.

(* ===================================================================== *)
(** ** The regression branch: a mean per column *)
(* ===================================================================== *)

Lemma vec_add_length u v :
  length u = length v -> length (vec_add u v) = length u.
Proof.
  revert v. induction u as [| x u IH]; intros [| y v] H; simpl in *;
    try reflexivity; try discriminate.
  f_equal. apply IH. congruence.
Qed.

Lemma vec_add_nth u v j :
  length u = length v ->
  Qeq (nth j (vec_add u v) 0%Q) (nth j u 0%Q + nth j v 0%Q).
Proof.
  revert v j. induction u as [| x u IH]; intros [| y v] j H; simpl in *;
    try discriminate.
  - destruct j; reflexivity.
  - destruct j as [| j]; [reflexivity |]. apply IH. congruence.
Qed.

Lemma sum_rows_spec k (rs : list (list Q)) :
  Forall (fun r => length r = k) rs ->
  forall acc, length acc = k ->
    length (fold_left vec_add rs acc) = k /\
    forall j, Qeq (nth j (fold_left vec_add rs acc) 0%Q)
                  (nth j acc 0%Q +
                   fold_right Qplus 0%Q (map (fun r => nth j r 0%Q) rs)).
Proof.
  induction 1 as [| r rs Hr Hrs IH]; intros acc Hacc; simpl.
  - split; [exact Hacc |]. intros j. ring.
  - assert (Hlen : length (vec_add acc r) = k)
      by (rewrite vec_add_length; congruence).
    destruct (IH _ Hlen) as [IHlen IHnth]. split; [exact IHlen |].
    intros j. rewrite IHnth, vec_add_nth by congruence. ring.
Qed.

Lemma nth_zeros j k : nth j (repeat 0%Q k) 0%Q = 0%Q.
Proof.
  revert j. induction k as [| k IH]; intros [| j]; simpl; auto.
Qed.

Lemma np_sum_axis0_spec P :
  rectangular P ->
  length (np_sum_axis0 P) = ncols P /\
  forall j, Qeq (nth j (np_sum_axis0 P) 0%Q) (column_sum P j).
Proof.
  intros Hrect. unfold np_sum_axis0, column_sum.
  destruct (sum_rows_spec (ncols P) (rows P) Hrect (repeat 0%Q (ncols P)))
    as [Hlen Hnth].
  - apply repeat_length.
  - split; [exact Hlen |]. intros j. rewrite Hnth, nth_zeros. ring.
Qed.

Lemma np_mean_axis0_nth P j :
  j < length (np_sum_axis0 P) ->
  nth j (np_mean_axis0 P) NaN =
  true_divide (nth j (np_sum_axis0 P) 0%Q) (length (rows P)).
Proof.
  intros Hj. unfold np_mean_axis0.
  rewrite (nth_indep _ NaN (true_divide 0%Q (length (rows P))))
    by (rewrite length_map; exact Hj).
  apply (map_nth (fun x => true_divide x (length (rows P)))).
Qed.



(* ===================================================================== *)
(** ** The kind of value the metric returns *)
(* ===================================================================== *)

Lemma py_eq_str_true v lit : py_eq_str v lit = true -> v = PStr lit.
Proof.
  destruct v as [x | d | n]; simpl; try discriminate.
  intros H. apply String.eqb_eq in H. congruence.
Qed.

Ltac case_outcome H :=
  match type of H with
  | context [match ?x with pair _ _ => _ end] =>
      let E := fresh "E" in
      destruct x as [[? | ?] ?] eqn:E; simpl in H; try discriminate H
  end.

(** When [select_prediction_model] binds the variable, the algorithm is one
    of the two listed literals. *)
Lemma select_prediction_bound w cfg alg s pm s' :
  select_prediction_model w cfg alg s = (Ret (Some pm), s') ->
  alg = PStr "regression" \/ alg = PStr "classifier".
Proof.
  unfold select_prediction_model. intros H.
  destruct (py_eq_str alg "regression") eqn:E1;
    [left; apply py_eq_str_true, E1 |].
  destruct (py_eq_str alg "classifier") eqn:E2;
    [right; apply py_eq_str_true, E2 |].
  discriminate H.
Qed.

(** [calculate_predictions] returns an array only when the entry's algorithm
    is [regression] or [classifier]: otherwise [prediction_model] is unbound. *)
Lemma predictions_returns_inv w f s P :
  fst (calculate_predictions w f s) = Ret P ->
  exists cfg alg,
    config_lookup w f = Ret cfg /\
    py_getitem cfg "algorithm" = Ret alg /\
    (alg = PStr "regression" \/ alg = PStr "classifier").
Proof.
  unfold calculate_predictions. intros H.
  unfold bind at 1 in H. rewrite config_run in H.
  destruct (config_lookup w f) as [cfg | e]; [| discriminate H].
  exists cfg.
  unfold bind at 1 in H. unfold lift at 1 in H.
  destruct (py_getitem cfg "model") as [model | e]; [| discriminate H].
  unfold bind at 1 in H. case_outcome H.
  unfold bind at 1 in H. case_outcome H.
  unfold bind at 1 in H. case_outcome H.
  unfold bind at 1 in H. unfold emit at 1 in H.
  unfold bind at 1 in H. unfold lift at 1 in H.
  destruct (a0 a1) as [emb | e]; [| discriminate H].
  unfold bind at 1 in H. unfold lift at 1 in H.
  destruct (py_getitem cfg "algorithm") as [alg | e]; [| discriminate H].
  exists alg. split; [reflexivity | split; [reflexivity |]].
  unfold bind at 1 in H. case_outcome H.
  destruct a2 as [pm |]; [| discriminate H].
  eapply select_prediction_bound. eassumption.
Qed.

(** C3.  Whenever [calculate_prediction_metric] returns a value, the
    feature's configured algorithm is [regression] and the value is a tuple
    of numbers, or it is [classifier] and the value is a float; the implicit
    [None] at the end of the method body is never returned. *)
Theorem metric_is_tuple_or_float w f cat s v :
  fst (calculate_prediction_metric w f cat s) = Ret v ->
  exists cfg,
    fst (__get_audio_feature_config w f s) = Ret cfg /\
    ((py_getitem cfg "algorithm" = Ret (PStr "regression") /\
      exists t : list pyfloat, v = MTuple t) \/
     (py_getitem cfg "algorithm" = Ret (PStr "classifier") /\
      exists r : pyfloat, v = MFloat r)).
Proof.
  intros H. unfold calculate_prediction_metric in H.
  unfold bind at 1 in H. rewrite config_run in H. rewrite config_run.
  destruct (config_lookup w f) as [cfg | e] eqn:Hcfg; [| discriminate H].
  exists cfg. split; [reflexivity |].
  unfold bind at 1 in H. case_outcome H.
  pose proof (f_equal fst E) as HP. simpl in HP.
  apply predictions_returns_inv in HP.
  destruct HP as (cfg' & alg & Hcfg' & Halg & Hcase).
  rewrite Hcfg in Hcfg'. injection Hcfg' as <-.
  unfold bind, lift in H. rewrite Halg in H. simpl in H.
  destruct Hcase as [-> | ->]; unfold aggregate in H; simpl in H.
  - left. split; [exact Halg |]. injection H as <-. eauto.
  - right. split; [exact Halg |].
    destruct (column a cat) as [col | e]; [| discriminate H].
    injection H as <-. eauto.
Qed.

Lemma metric_is_tuple_or_float_witness :
  exists cfg,
    fst (__get_audio_feature_config Demo.world "arousal_valence" Demo.ready) = Ret cfg /\
    ((py_getitem cfg "algorithm" = Ret (PStr "regression") /\
      exists t : list pyfloat, MTuple [Finite (18 # 3); Finite (19 # 6)] = MTuple t) \/
     (py_getitem cfg "algorithm" = Ret (PStr "classifier") /\
      exists r : pyfloat, MTuple [Finite (18 # 3); Finite (19 # 6)] = MFloat r)).
Proof.
  apply (metric_is_tuple_or_float Demo.world "arousal_valence" 0 Demo.ready).
  vm_compute. reflexivity.
Defined.

(* ===================================================================== *)
(** ** The configuration lookup *)
(* ===================================================================== *)

(** C4.  When the configuration file opens and parses to a mapping that has
    the feature name as a key, the lookup returns exactly the value stored
    under that key (and touches nothing but the file). *)
Theorem config_lookup_known_key w f s text (d : gmap string pyval) entry :
  open_file w config_path "r" = Ret text ->
  json_load w text = Ret (PDict d) ->
  d !! f = Some entry ->
  __get_audio_feature_config w f s =
    (Ret entry, mkState (self s) (EvOpen config_path "r" :: log s)).
Proof.
  intros Hopen Hload Hkey. rewrite config_run. unfold config_lookup.
  rewrite Hopen, Hload. unfold py_getitem. rewrite Hkey. reflexivity.
Qed.

Lemma config_lookup_known_key_witness :
  __get_audio_feature_config Demo.world "danceability" Demo.ready =
    (Ret (Demo.entry "effnet" "classifier" "discogs-effnet-bs64-1.pb"
                     "danceability-discogs-effnet-1.pb"),
     mkState (self Demo.ready) (EvOpen config_path "r" :: log Demo.ready)).
Proof.
  refine (config_lookup_known_key Demo.world "danceability" Demo.ready "{}"
            Demo.table _ _ _ _).
  - vm_compute. reflexivity.
  - vm_compute. reflexivity.
  - vm_compute. reflexivity.
Defined.

Lemma config_lookup_raise_iff w f e :
  config_lookup w f = Raise e <->
  open_file w config_path "r" = Raise e \/
  (exists text, open_file w config_path "r" = Ret text /\
                json_load w text = Raise e) \/
  (exists text (d : gmap string pyval),
      open_file w config_path "r" = Ret text /\
      json_load w text = Ret (PDict d) /\ d !! f = None /\ e = KeyError f) \/
  (exists text v,
      open_file w config_path "r" = Ret text /\
      json_load w text = Ret v /\ (forall d, v <> PDict d) /\ e = TypeError).
Proof.
  unfold config_lookup, py_getitem.
  destruct (open_file w config_path "r") as [text | e0];
    [| split;
       [ intros [= <-]; left; reflexivity
       | intros [[= <-] | [(t & H & _) | [(t & d & H & _) | (t & v & H & _)]]];
         [reflexivity | discriminate H ..] ] ].
  destruct (json_load w text) as [[x | d | n] | e1] eqn:Hload;
    [| destruct (d !! f) as [x |] eqn:Hkey | |].
  all: split;
    [| intros [H | [(t & H1 & H2) | [(t & d' & H1 & H2 & H3 & H4)
                                    | (t & v & H1 & H2 & H3 & H4)]]];
       simplify_eq; try reflexivity; try congruence;
       exfalso; eapply H3; reflexivity ].
  - intros [= <-]. right; right; right.
    exists text, (PStr x). repeat split; congruence.
  - discriminate.
  - intros [= <-]. right; right; left. exists text, d. auto.
  - intros [= <-]. right; right; right.
    exists text, (POther n). repeat split; congruence.
  - intros [= <-]. right; left. exists text. auto.
Qed.

Lemma predictions_raise_of_config w f s e :
  config_lookup w f = Raise e ->
  fst (calculate_predictions w f s) = Raise e.
Proof.
  intros H. unfold calculate_predictions, bind.
  rewrite config_run, H. reflexivity.
Qed.

Lemma metric_raise_of_config w f cat s e :
  config_lookup w f = Raise e ->
  fst (calculate_prediction_metric w f cat s) = Raise e.
Proof.
  intros H. unfold calculate_prediction_metric, bind.
  rewrite config_run, H. reflexivity.
Qed.

(** C5, as the code has it.  The lookup validates nothing and recovers from
    nothing: it raises [e] exactly when [open] raises [e], or [json.load]
    raises [e], or the parsed value has no entry for the feature name
    ([KeyError] of that name for a mapping without the key, [TypeError] for a
    value that is not a mapping); and that same exception, unchanged, is what
    [calculate_predictions] and [calculate_prediction_metric] then raise. *)
Theorem lookup_fails_natively w f s e :
  (fst (__get_audio_feature_config w f s) = Raise e <->
   open_file w config_path "r" = Raise e \/
   (exists text, open_file w config_path "r" = Ret text /\
                 json_load w text = Raise e) \/
   (exists text (d : gmap string pyval),
       open_file w config_path "r" = Ret text /\
       json_load w text = Ret (PDict d) /\ d !! f = None /\ e = KeyError f) \/
   (exists text v,
       open_file w config_path "r" = Ret text /\
       json_load w text = Ret v /\ (forall d, v <> PDict d) /\ e = TypeError)) /\
  (fst (__get_audio_feature_config w f s) = Raise e ->
   fst (calculate_predictions w f s) = Raise e /\
   forall cat, fst (calculate_prediction_metric w f cat s) = Raise e).
Proof.
  rewrite config_run. simpl. split.
  - apply config_lookup_raise_iff.
  - intros H. split.
    + apply predictions_raise_of_config, H.
    + intros cat. apply metric_raise_of_config, H.
Qed.

Lemma lookup_fails_natively_witness :
  fst (calculate_predictions Demo.world "nope" Demo.ready) = Raise (KeyError "nope") /\
  forall cat,
    fst (calculate_prediction_metric Demo.world "nope" cat Demo.ready) =
      Raise (KeyError "nope").
Proof.
  apply (proj2 (lookup_fails_natively Demo.world "nope" Demo.ready (KeyError "nope"))).
  vm_compute. reflexivity.
Defined.

(** C5, as the claim has it, fails: on a configuration file that opens and
    parses and holds the requested feature, so that the lookup returns,
    [calculate_predictions] and [calculate_prediction_metric] still raise
    (here: the entry names a model that no [case] lists); and with an entry
    that is served without error, the metric raises for a category index
    outside the prediction columns. *)
Lemma failure_without_lookup_failure :
  returns (fst (__get_audio_feature_config Demo.world "timbre" Demo.ready)) /\
  fst (calculate_predictions Demo.world "timbre" Demo.ready) =
    Raise (UnboundLocalError "embedding_model") /\
  fst (calculate_prediction_metric Demo.world "timbre" 0 Demo.ready) =
    Raise (UnboundLocalError "embedding_model") /\
  returns (fst (__get_audio_feature_config Demo.world "danceability" Demo.ready)) /\
  returns (fst (calculate_predictions Demo.world "danceability" Demo.ready)) /\
  fst (calculate_prediction_metric Demo.world "danceability" 2 Demo.ready) =
    Raise IndexError.
Proof. vm_compute. repeat split. Qed.

(* ===================================================================== *)
(** ** Model selection in [calculate_predictions] *)
(* ===================================================================== *)

Lemma getattr_run {A} name (field : analyzer -> option A) s v :
  field (self s) = Some v -> getattr name field s = (Ret v, s).
Proof. intros H. unfold getattr, bind, get_self. rewrite H. reflexivity. Qed.

(** C6.  On a constructed analyzer, for a feature whose entry names model
    [musicnn] or [effnet] and algorithm [regression] or [classifier]:
    [calculate_predictions] builds the MusiCNN predictor (output
    [model/dense/BiasAdd]) or the EffnetDiscogs predictor (output
    [PartitionedCall:1]) from the entry's embedding graph filename under
    [./models/], applies it to the loaded audio, builds the 2D predictor
    from the entry's prediction graph filename under [./models/] with output
    [model/Identity] for regression and [model/Softmax] for classifier, and
    returns what that predictor gives on the embeddings. *)
Theorem predictions_select_models w f s path samples (d : gmap string pyval)
    (musicnn regression : bool) egf pgf :
  initialized (self s) path samples ->
  fst (__get_audio_feature_config w f s) = Ret (PDict d) ->
  d !! "model" = Some (PStr (if musicnn then "musicnn" else "effnet")) ->
  d !! "embedding_graph_filename" = Some (PStr egf) ->
  d !! "algorithm" =
    Some (PStr (if regression then "regression" else "classifier")) ->
  d !! "prediction_graph_filename" = Some (PStr pgf) ->
  fst (calculate_predictions w f s) =
    and_then
      (if musicnn
       then TensorflowPredictMusiCNN w ("./models/" ++ egf) "model/dense/BiasAdd"
       else TensorflowPredictEffnetDiscogs w ("./models/" ++ egf) "PartitionedCall:1")
      (fun embedding_model =>
         and_then (embedding_model samples)
           (fun embeddings =>
              and_then
                (TensorflowPredict2D w ("./models/" ++ pgf)
                   (if regression then "model/Identity" else "model/Softmax"))
                (fun prediction_model => prediction_model embeddings))).
Proof.
  intros Hinit Hcfg Hmodel Hegf Halg Hpgf.
  rewrite config_run in Hcfg. simpl in Hcfg.
  assert (Gmodel : py_getitem (PDict d) "model" =
                   Ret (PStr (if musicnn then "musicnn" else "effnet")))
    by (unfold py_getitem; rewrite Hmodel; reflexivity).
  assert (Gegf : py_getitem (PDict d) "embedding_graph_filename" = Ret (PStr egf))
    by (unfold py_getitem; rewrite Hegf; reflexivity).
  assert (Galg : py_getitem (PDict d) "algorithm" =
                 Ret (PStr (if regression then "regression" else "classifier")))
    by (unfold py_getitem; rewrite Halg; reflexivity).
  assert (Gpgf : py_getitem (PDict d) "prediction_graph_filename" = Ret (PStr pgf))
    by (unfold py_getitem; rewrite Hpgf; reflexivity).
  destruct s as [a l]. simpl in Hinit. unfold initialized in Hinit. subst a.
  unfold calculate_predictions. unfold bind at 1. rewrite config_run, Hcfg.
  unfold select_embedding_model, select_prediction_model.
  destruct musicnn, regression;
    repeat first
      [ rewrite Gmodel | rewrite Gegf | rewrite Galg | rewrite Gpgf
      | progress unfold bind, lift, emit, ret, raise, local, getattr, get_self
      | progress cbn -[py_getitem]
      | match goal with
        | |- context [match ?x with Ret _ => _ | Raise _ => _ end] =>
            destruct x
        end
      | reflexivity ].
Qed.

Lemma predictions_select_models_witness :
  fst (calculate_predictions Demo.world "danceability" Demo.ready) =
    and_then
      (TensorflowPredictEffnetDiscogs Demo.world
         ("./models/" ++ "discogs-effnet-bs64-1.pb") "PartitionedCall:1")
      (fun embedding_model =>
         and_then (embedding_model Demo.samples)
           (fun embeddings =>
              and_then
                (TensorflowPredict2D Demo.world
                   ("./models/" ++ "danceability-discogs-effnet-1.pb")
                   "model/Softmax")
                (fun prediction_model => prediction_model embeddings))).
Proof.
  refine (predictions_select_models Demo.world "danceability" Demo.ready
            "song.mp3" Demo.samples
            (Demo.fields "effnet" "classifier" "discogs-effnet-bs64-1.pb"
                         "danceability-discogs-effnet-1.pb")
            false false _ _ _ _ _ _ _ _).
  - vm_compute. reflexivity.
  - vm_compute. reflexivity.
  - vm_compute. reflexivity.
  - vm_compute. reflexivity.
  - vm_compute. reflexivity.
  - vm_compute. reflexivity.
Defined.

(* ===================================================================== *)
(** ** No shared mutable state *)
(* ===================================================================== *)

(** C7.  With the collaborators fixed, a second call of
    [calculate_prediction_metric] with the same feature name and category
    gives the outcome of the first, and none of [get_metadata],
    [calculate_predictions], [calculate_prediction_metric] changes the file
    path, the model path or the loaded audio of the analyzer. *)
Theorem no_shared_mutable_state w f cat s :
  fst (calculate_prediction_metric w f cat
         (snd (calculate_prediction_metric w f cat s))) =
    fst (calculate_prediction_metric w f cat s) /\
  self (snd (get_metadata w s)) = self s /\
  self (snd (calculate_predictions w f s)) = self s /\
  self (snd (calculate_prediction_metric w f cat s)) = self s.
Proof.
  destruct (readonly_metric w f cat s) as [Hself Hdet].
  repeat split.
  - apply Hdet. exact Hself.
  - apply (readonly_get_metadata w s).
  - apply (readonly_predictions w f s).
  - exact Hself.
Qed.

(* ===================================================================== *)
(** ** The audio is decoded once, at construction *)
(* ===================================================================== *)

Lemma keeps_audio_silent {A} (m : M A) :
  (forall s, snd (m s) = s) -> keeps_audio m.
Proof.
  intros H s. rewrite H. split; [reflexivity |].
  exists []. repeat split. constructor.
Qed.

Lemma keeps_audio_ret {A} (a : A) : keeps_audio (ret a).
Proof. apply keeps_audio_silent. reflexivity. Qed.

Lemma keeps_audio_raise {A} (e : exn) : keeps_audio (@raise A e).
Proof. apply keeps_audio_silent. reflexivity. Qed.

Lemma keeps_audio_lift {A} (o : outcome A) : keeps_audio (lift o).
Proof. apply keeps_audio_silent. reflexivity. Qed.

Lemma keeps_audio_local {A} name (v : option A) : keeps_audio (local name v).
Proof. destruct v; [apply keeps_audio_ret | apply keeps_audio_raise]. Qed.

Lemma keeps_audio_getattr {A} name (field : analyzer -> option A) :
  keeps_audio (getattr name field).
Proof.
  apply keeps_audio_silent. intros s. unfold getattr, bind, get_self.
  destruct (field (self s)); reflexivity.
Qed.

Lemma keeps_audio_bind {A B} (m : M A) (k : A -> M B) :
  keeps_audio m -> (forall a, keeps_audio (k a)) -> keeps_audio (bind m k).
Proof.
  intros Hm Hk s. unfold bind.
  destruct (Hm s) as (Hself & new & Hlog & Hloads & Hin).
  destruct (m s) as [[a | e] s1]; simpl in *.
  - destruct (Hk a s1) as (Hself' & new' & Hlog' & Hloads' & Hin').
    split; [congruence |].
    exists (new' ++ new). repeat split.
    + rewrite Hlog', Hlog. apply app_assoc.
    + unfold loads in *. rewrite List.filter_app, List.length_app. lia.
    + unfold embed_inputs in *. rewrite flat_map_app. apply Forall_app. split.
      * rewrite <- Hself. exact Hin'.
      * exact Hin.
  - split; [exact Hself |]. exists new. auto.
Qed.

(** An event other than a decoding of the file or a call of an embedding model. *)
Lemma keeps_audio_emit (e : event) :
  is_load e = false -> (forall a, e <> EvEmbed a) -> keeps_audio (emit e).
Proof.
  intros Hload Hembed s. split; [reflexivity |].
  exists [e]. repeat split.
  - unfold loads. simpl. rewrite Hload. reflexivity.
  - destruct e; simpl; try (exfalso; eapply Hembed; reflexivity); constructor.
Qed.

(** [embedding_model(self.__audio)]: the attribute is read and passed on. *)
Lemma keeps_audio_embed {B} (k : audio -> M B) :
  (forall a, keeps_audio (k a)) ->
  keeps_audio (bind (getattr "__audio" __audio)
                    (fun samples => bind (emit (EvEmbed samples))
                                         (fun _ => k samples))).
Proof.
  intros Hk s. unfold getattr, emit. unfold bind, get_self. simpl.
  destruct (__audio (self s)) as [a |] eqn:Ha; simpl.
  - destruct (Hk a (mkState (self s) (EvEmbed a :: log s)))
      as (Hself & new & Hlog & Hloads & Hin). simpl in *.
    split; [exact Hself |].
    exists (new ++ [EvEmbed a]). repeat split.
    + rewrite Hlog, <- app_assoc. reflexivity.
    + unfold loads in *. rewrite List.filter_app, List.length_app. simpl. lia.
    + unfold embed_inputs in *. rewrite flat_map_app. apply Forall_app. split.
      * rewrite Ha in Hin. exact Hin.
      * simpl. constructor; [reflexivity | constructor].
  - split; [reflexivity |]. exists []. repeat split. constructor.
Qed.

Create HintDb audio_db.

#[export] Hint Resolve keeps_audio_ret keeps_audio_raise keeps_audio_lift
  keeps_audio_local keeps_audio_getattr : audio_db.

Ltac keeps_audio_tac :=
  repeat first
    [ apply keeps_audio_embed; intros ?
    | solve [auto with audio_db]
    | apply keeps_audio_emit; [reflexivity | discriminate]
    | apply keeps_audio_bind; [| intros ?]
    | match goal with |- keeps_audio (if ?b then _ else _) => destruct b end ].

Lemma keeps_audio_config w f : keeps_audio (__get_audio_feature_config w f).
Proof. unfold __get_audio_feature_config. keeps_audio_tac. Qed.

#[export] Hint Resolve keeps_audio_config : audio_db.

Lemma keeps_audio_predictions w f : keeps_audio (calculate_predictions w f).
Proof.
  unfold calculate_predictions, select_embedding_model, select_prediction_model.
  keeps_audio_tac.
Qed.

#[export] Hint Resolve keeps_audio_predictions : audio_db.

Lemma keeps_audio_metric w f cat :
  keeps_audio (calculate_prediction_metric w f cat).
Proof. unfold calculate_prediction_metric. keeps_audio_tac. Qed.

Lemma keeps_audio_metadata_loop p names acc :
  keeps_audio (metadata_loop p names acc).
Proof.
  revert acc. induction names as [| d rest IH]; intros acc; simpl;
    keeps_audio_tac.
Qed.

#[export] Hint Resolve keeps_audio_metadata_loop : audio_db.

Lemma keeps_audio_get_metadata w : keeps_audio (get_metadata w).
Proof. unfold get_metadata. keeps_audio_tac. Qed.

Lemma keeps_audio_file_path : keeps_audio file_path.
Proof. unfold file_path. keeps_audio_tac. Qed.

Lemma construct_run w path :
  construct w path =
  match MonoLoader w path 16000 4 with
  | Ret samples =>
      (Ret tt,
       mkState (mkAnalyzer (Some path) (Some "./models/") (Some samples))
               [EvMonoLoader path 16000 4])
  | Raise e =>
      (Raise e,
       mkState (mkAnalyzer (Some path) (Some "./models/") None)
               [EvMonoLoader path 16000 4])
  end.
Proof.
  unfold construct, __init__, __get_essentia_audio, set_file_path,
    set_model_path, set_audio, getattr.
  unfold bind, get_self, set_self, emit, lift, start, blank. simpl.
  destruct (MonoLoader w path 16000 4); reflexivity.
Qed.

Lemma construct_initialized w path samples :
  MonoLoader w path 16000 4 = Ret samples ->
  initialized (self (snd (construct w path))) path samples.
Proof. intros H. rewrite construct_run, H. reflexivity. Qed.

Lemma loaded_once_step {A} (m : M A) path samples s :
  keeps_audio m -> loaded_once path samples s ->
  loaded_once path samples (snd (m s)).
Proof.
  intros Hm (Hinit & Hloads & Hemb).
  destruct (Hm s) as (Hself & new & Hlog & Hnew & Hin).
  unfold loaded_once, initialized in *. rewrite Hself, Hlog. repeat split.
  - exact Hinit.
  - unfold loads in *. rewrite List.filter_app, List.length_app. lia.
  - unfold embed_inputs in *. rewrite flat_map_app. apply Forall_app. split.
    + rewrite Hinit in Hin. simpl in Hin.
      eapply List.Forall_impl; [| exact Hin]. simpl. congruence.
    + exact Hemb.
Qed.

Lemma loaded_once_perform w c path samples s :
  loaded_once path samples s -> loaded_once path samples (perform w c s).
Proof.
  destruct c; simpl; apply loaded_once_step.
  - apply keeps_audio_file_path.
  - apply keeps_audio_get_metadata.
  - apply keeps_audio_predictions.
  - apply keeps_audio_metric.
Qed.

Lemma loaded_once_run_calls w cs path samples s :
  loaded_once path samples s -> loaded_once path samples (run_calls w cs s).
Proof.
  revert s. induction cs as [| c cs IH]; intros s H; simpl.
  - exact H.
  - apply IH, loaded_once_perform, H.
Qed.



(* ===================================================================== *)
(** ** Metadata: keys are last components, later descriptors win *)
(* ===================================================================== *)

Lemma py_last_snoc {A} (l : list A) (k : A) : py_last (l ++ [k]) = Ret k.
Proof.
  induction l as [| x l IH]; simpl; [reflexivity |].
  destruct (l ++ [k]) eqn:E; [destruct l; discriminate | exact IH].
Qed.

(** The pieces of [s.split(sep)]: the last one holds no separator, and the
    string is that piece alone or a prefix, the separator, and that piece. *)
Lemma split_last_piece sep s :
  exists l k,
    split sep s = l ++ [k] /\
    ~ In sep (chars k) /\
    (l = [] -> s = k) /\
    (l <> [] -> exists p, s = (p ++ String sep k)%string).
Proof.
  induction s as [| c s' (l & k & Hsplit & Hk & Hone & Hmany)]; simpl.
  - exists [], EmptyString. repeat split; simpl; auto. congruence.
  - destruct (Ascii.eqb_spec c sep) as [-> | Hc].
    + exists (EmptyString :: l), k. rewrite Hsplit. repeat split; auto.
      * discriminate.
      * intros _. destruct l as [| h t].
        -- exists EmptyString. simpl. rewrite (Hone eq_refl). reflexivity.
        -- destruct Hmany as [p Hp]; [discriminate |].
           exists (String sep p). simpl. rewrite Hp. reflexivity.
    + rewrite Hsplit. destruct l as [| h t]; simpl.
      * exists [], (String c k). repeat split; simpl.
        -- intros [H | H]; [congruence | exact (Hk H)].
        -- intros _. rewrite (Hone eq_refl). reflexivity.
        -- congruence.
      * exists (String c h :: t), k. repeat split; auto.
        -- discriminate.
        -- intros _. destruct Hmany as [p Hp]; [discriminate |].
           exists (String c p). simpl. rewrite Hp. reflexivity.
Qed.

Lemma last_component_spec d k :
  py_last (split "." d) = Ret k ->
  ~ In "."%char (chars k) /\
  (d = k \/ exists p, d = (p ++ "." ++ k)%string).
Proof.
  destruct (split_last_piece "." d) as (l & k' & Hsplit & Hk & Hone & Hmany).
  rewrite Hsplit, py_last_snoc. intros [= <-]. split; [exact Hk |].
  destruct l as [| h t].
  - left. apply Hone. reflexivity.
  - right. apply Hmany. discriminate.
Qed.

Lemma last_component_total d : exists k, py_last (split "." d) = Ret k.
Proof.
  destruct (split_last_piece "." d) as (l & k & Hsplit & _).
  exists k. rewrite Hsplit. apply py_last_snoc.
Qed.

Lemma pool_getitem_in (p : pool) d :
  In d (descriptorNames p) ->
  exists vals, pool_getitem p d = Ret vals /\ In (d, vals) p.
Proof.
  induction p as [| [name vals] rest IH]; simpl; [tauto |].
  intros Hin. destruct (String.eqb_spec name d) as [-> | Hne].
  - exists vals. auto.
  - destruct Hin as [H | H]; [congruence |].
    destruct (IH H) as (vals' & Hget & Hmem). exists vals'. auto.
Qed.

Lemma pool_getitem_nodup (before : pool) d vals after :
  List.NoDup (descriptorNames (before ++ (d, vals) :: after)) ->
  pool_getitem (before ++ (d, vals) :: after) d = Ret vals.
Proof.
  induction before as [| [name vals0] rest IH]; simpl; intros Hnd.
  - rewrite String.eqb_refl. reflexivity.
  - inversion Hnd as [| x xs Hnotin Hnd']; subst.
    destruct (String.eqb_spec name d) as [-> | Hne].
    + exfalso. apply Hnotin. unfold descriptorNames.
      rewrite map_app. apply in_or_app. right. left. reflexivity.
    + apply IH. exact Hnd'.
Qed.

Lemma metadata_loop_cons (p : pool) d rest acc s :
  metadata_loop p (d :: rest) acc s =
  match py_last (split "." d) with
  | Ret key =>
      match pool_getitem p d with
      | Ret values =>
          match py_first values with
          | Ret value => metadata_loop p rest (<[key := value]> acc) s
          | Raise e => (Raise e, s)
          end
      | Raise e => (Raise e, s)
      end
  | Raise e => (Raise e, s)
  end.
Proof.
  simpl. unfold bind, lift.
  destruct (py_last (split "." d)); [| reflexivity].
  destruct (pool_getitem p d) as [values |]; [| reflexivity].
  destruct (py_first values); reflexivity.
Qed.

(** The loop completes when every descriptor it visits has a value. *)
Lemma metadata_loop_total (p : pool) names :
  Forall (fun e => snd e <> []) p ->
  (forall d, In d names -> In d (descriptorNames p)) ->
  forall acc s, exists m, metadata_loop p names acc s = (Ret m, s).
Proof.
  intros Hvals. induction names as [| d rest IH]; intros Hsub acc s.
  - exists acc. reflexivity.
  - rewrite metadata_loop_cons.
    destruct (last_component_total d) as [k ->].
    destruct (pool_getitem_in p d) as (vals & -> & Hmem);
      [apply Hsub; left; reflexivity |].
    rewrite List.Forall_forall in Hvals. specialize (Hvals _ Hmem). simpl in Hvals.
    destruct vals as [| v vs]; [congruence |]. simpl.
    apply IH. intros d' Hd'. apply Hsub. right. exact Hd'.
Qed.

Ltac loop_step H :=
  rewrite metadata_loop_cons in H;
  match type of H with
  | context [match py_last ?l with _ => _ end] =>
      destruct (py_last l) as [?key | ?] eqn:?Hkey; [| discriminate H]
  end;
  match type of H with
  | context [match pool_getitem ?p ?d with _ => _ end] =>
      destruct (pool_getitem p d) as [?values | ?] eqn:?Hget; [| discriminate H]
  end;
  match type of H with
  | context [match py_first ?l with _ => _ end] =>
      destruct (py_first l) as [?value | ?] eqn:?Hfirst; [| discriminate H]
  end.

(** A key that no visited descriptor produces keeps its entry. *)
Lemma metadata_loop_untouched (p : pool) names k :
  (forall d, In d names -> py_last (split "." d) <> Ret k) ->
  forall acc s m s',
    metadata_loop p names acc s = (Ret m, s') -> m !! k = acc !! k.
Proof.
  induction names as [| d rest IH]; intros Hno acc s m s' H.
  - injection H as <- _. reflexivity.
  - loop_step H.
    rewrite (IH (fun d' Hd' => Hno d' (or_intror Hd')) _ _ _ _ H).
    apply lookup_insert_ne. intros ->.
    apply (Hno d (or_introl eq_refl)). exact Hkey.
Qed.

(** The entry of a key is written by the last descriptor that produces it. *)
Lemma metadata_loop_last_wins (p : pool) before d after k v vs :
  py_last (split "." d) = Ret k ->
  pool_getitem p d = Ret (v :: vs) ->
  (forall d', In d' after -> py_last (split "." d') <> Ret k) ->
  forall acc s m s',
    metadata_loop p (before ++ d :: after) acc s = (Ret m, s') ->
    m !! k = Some v.
Proof.
  intros Hk Hget Hafter.
  induction before as [| d0 rest IH]; intros acc s m s' H; simpl app in H.
  - rewrite metadata_loop_cons, Hk, Hget in H. simpl in H.
    rewrite (metadata_loop_untouched p after k Hafter _ _ _ _ H).
    apply lookup_insert_eq.
  - loop_step H. eapply IH. exact H.
Qed.

(** The keys are exactly the last components of the visited descriptors. *)
Lemma metadata_loop_keys (p : pool) names :
  forall acc s m s',
    metadata_loop p names acc s = (Ret m, s') ->
    forall k, is_Some (m !! k) <->
              is_Some (acc !! k) \/
              exists d, In d names /\ py_last (split "." d) = Ret k.
Proof.
  induction names as [| d rest IH]; intros acc s m s' H k.
  - injection H as <- _. split; [auto |]. intros [H | (d & [] & _)]. exact H.
  - loop_step H. rewrite (IH _ _ _ _ H k), lookup_insert_is_Some. split.
    + intros [[-> | [_ Hacc]] | (d' & Hd' & Hk')].
      * right. exists d. split; [left; reflexivity | exact Hkey].
      * left. exact Hacc.
      * right. exists d'. split; [right; exact Hd' | exact Hk'].
    + intros [Hacc | (d' & [-> | Hd'] & Hk')].
      * left. destruct (decide (key = k)); [left; assumption | right; auto].
      * left. left. congruence.
      * right. exists d'. auto.
Qed.

(** C9.  [get_metadata] files each value under the last dot-separated
    component of its descriptor name (a key without a dot: the whole name,
    or what follows its last dot) and keeps the first element of the
    descriptor's value list; the keys of the result are exactly those
    components, and when several descriptors end in the same component the
    entry is the value of the one that [descriptorNames()] lists last. *)
Theorem metadata_keyed_by_last_component w s path before d v vs after k :
  __file_path (self s) = Some path ->
  MetadataReader w path = Ret (before ++ (d, v :: vs) :: after) ->
  List.NoDup (descriptorNames (before ++ (d, v :: vs) :: after)) ->
  Forall (fun e => snd e <> []) (before ++ (d, v :: vs) :: after) ->
  py_last (split "." d) = Ret k ->
  Forall (fun e => py_last (split "." (fst e)) <> Ret k) after ->
  (~ In "."%char (chars k) /\
   (d = k \/ exists p, d = (p ++ "." ++ k)%string)) /\
  exists m : gmap string string,
    fst (get_metadata w s) = Ret m /\
    m !! k = Some v /\
    forall k', is_Some (m !! k') <->
               exists d', In d' (descriptorNames (before ++ (d, v :: vs) :: after)) /\
                          py_last (split "." d') = Ret k'.
Proof.
  intros Hpath Hread Hnd Hvals Hk Hafter.
  split; [apply last_component_spec, Hk |].
  set (p := before ++ (d, v :: vs) :: after) in *.
  destruct (metadata_loop_total p (descriptorNames p) Hvals (fun _ H => H) ∅
              (mkState (self s) (EvMetadataReader path :: log s)))
    as [m Hm].
  exists m.
  assert (Hrun : fst (get_metadata w s) = Ret m).
  { unfold get_metadata. unfold bind at 1.
    rewrite (getattr_run _ _ _ path Hpath).
    unfold bind, emit, lift. simpl. rewrite Hread. simpl.
    fold p. rewrite Hm. reflexivity. }
  split; [exact Hrun | split].
  - assert (Hnames : descriptorNames p =
                     descriptorNames before ++ d :: descriptorNames after).
    { unfold p, descriptorNames. rewrite map_app. reflexivity. }
    rewrite Hnames in Hm.
    eapply metadata_loop_last_wins; [exact Hk | | | exact Hm].
    + apply pool_getitem_nodup. exact Hnd.
    + intros d' Hd'. unfold descriptorNames in Hd'.
      apply in_map_iff in Hd'. destruct Hd' as (e & <- & He).
      rewrite List.Forall_forall in Hafter. apply Hafter, He.
  - intros k'. rewrite (metadata_loop_keys p _ _ _ _ _ Hm k').
    rewrite lookup_empty. split.
    + intros [H | H]; [destruct H; discriminate | exact H].
    + intros H. right. exact H.
Qed.

Lemma metadata_keyed_by_last_component_witness :
  exists m : gmap string string,
    fst (get_metadata Demo.world Demo.ready) = Ret m /\
    m !! "album" = Some "Reissue".
Proof.
  destruct (metadata_keyed_by_last_component Demo.world Demo.ready "song.mp3"
              [("metadata.tags.album", ["The Wildest!"; "ignored"]);
               ("metadata.tags.title", ["Jump, Jive, an' Wail"])]
              "extra.album" "Reissue" [] [("bitrate", ["320"])] "album")
    as (_ & m & Hrun & Hkey & _).
  - reflexivity.
  - reflexivity.
  - simpl. repeat (constructor; [simpl; intuition discriminate |]). constructor.
  - repeat constructor; discriminate.
  - reflexivity.
  - repeat constructor. vm_compute. discriminate.
  - exists m. split; assumption.
Defined.

(* ===================================================================== *)
(** ** Further properties: construction *)
(* ===================================================================== *)

(** X1.  The constructor fails exactly when decoding the file fails, with
    the decoder's own exception, and then leaves [__audio] unassigned; it
    completes exactly when decoding gives samples. *)
Theorem construct_fails_as_loader w path :
  (forall e, fst (construct w path) = Raise e <->
             MonoLoader w path 16000 4 = Raise e) /\
  (fst (construct w path) = Ret tt <->
   exists samples, MonoLoader w path 16000 4 = Ret samples) /\
  (raises (fst (construct w path)) ->
   __audio (self (snd (construct w path))) = None).
Proof.
  rewrite construct_run.
  destruct (MonoLoader w path 16000 4) as [samples | e0]; simpl.
  - split; [| split].
    + intros e. split; discriminate.
    + split; [eauto | reflexivity].
    + intros [].
  - split; [| split].
    + intros e. split; intros [= <-]; reflexivity.
    + split; [discriminate | intros [x Hx]; discriminate Hx].
    + reflexivity.
Qed.

(* ===================================================================== *)
(** ** Further properties: entries the two [match] statements do not list *)
(* ===================================================================== *)

(** X2.  When the entry's model is neither [musicnn] nor [effnet],
    [calculate_predictions] raises [UnboundLocalError] for
    [embedding_model], having done nothing but open the configuration:
    no graph is loaded and the audio is not touched. *)
Theorem unlisted_model_is_unbound w f s cfg model :
  fst (__get_audio_feature_config w f s) = Ret cfg ->
  py_getitem cfg "model" = Ret model ->
  py_eq_str model "musicnn" = false ->
  py_eq_str model "effnet" = false ->
  calculate_predictions w f s =
    (Raise (UnboundLocalError "embedding_model"),
     mkState (self s) (EvOpen config_path "r" :: log s)).
Proof.
  intros Hcfg Hmodel H1 H2. rewrite config_run in Hcfg. simpl in Hcfg.
  unfold calculate_predictions. unfold bind at 1. rewrite config_run, Hcfg.
  unfold bind at 1, lift at 1. rewrite Hmodel.
  unfold bind at 1, select_embedding_model. rewrite H1, H2. reflexivity.
Qed.

Lemma unlisted_model_is_unbound_witness :
  calculate_predictions Demo.world "timbre" Demo.ready =
    (Raise (UnboundLocalError "embedding_model"),
     mkState (self Demo.ready) (EvOpen config_path "r" :: log Demo.ready)).
Proof.
  refine (unlisted_model_is_unbound Demo.world "timbre" Demo.ready
            (Demo.entry "vggish" "classifier" "audioset-vggish-3.pb"
                        "nsynth_bright_dark-audioset-vggish-1.pb")
            (PStr "vggish") _ _ _ _).
  - vm_compute. reflexivity.
  - vm_compute. reflexivity.
  - reflexivity.
  - reflexivity.
Defined.

Ltac run_statements :=
  repeat first
    [ match goal with H : py_getitem _ _ = _ |- _ => rewrite H end
    | match goal with H : py_eq_str _ _ = false |- _ => rewrite H end
    | match goal with H : _ = Ret _ |- _ => rewrite H end
    | progress unfold bind, lift, emit, ret, raise, local, getattr, get_self
    | progress cbn -[py_getitem]
    | reflexivity ].

Lemma getitem_of_lookup (d : gmap string pyval) key v :
  d !! key = Some v -> py_getitem (PDict d) key = Ret v.
Proof. intros H. unfold py_getitem. rewrite H. reflexivity. Qed.

(** X3.  When the entry's algorithm is neither [regression] nor
    [classifier], [calculate_predictions] raises [UnboundLocalError] for
    [prediction_model], but only after it has loaded the embedding graph and
    run the embedding model on the audio; no prediction graph is loaded. *)
Theorem unlisted_algorithm_is_unbound w f s path samples
    (d : gmap string pyval) (musicnn : bool) egf alg em emb :
  initialized (self s) path samples ->
  fst (__get_audio_feature_config w f s) = Ret (PDict d) ->
  d !! "model" = Some (PStr (if musicnn then "musicnn" else "effnet")) ->
  d !! "embedding_graph_filename" = Some (PStr egf) ->
  (if musicnn
   then TensorflowPredictMusiCNN w ("./models/" ++ egf) "model/dense/BiasAdd"
   else TensorflowPredictEffnetDiscogs w ("./models/" ++ egf) "PartitionedCall:1")
    = Ret em ->
  em samples = Ret emb ->
  d !! "algorithm" = Some alg ->
  py_eq_str alg "regression" = false ->
  py_eq_str alg "classifier" = false ->
  calculate_predictions w f s =
    (Raise (UnboundLocalError "prediction_model"),
     mkState (self s)
       (EvEmbed samples ::
        (if musicnn
         then EvMusiCNN ("./models/" ++ egf) "model/dense/BiasAdd"
         else EvEffnetDiscogs ("./models/" ++ egf) "PartitionedCall:1") ::
        EvOpen config_path "r" :: log s)).
Proof.
  intros Hinit Hcfg Hmodel Hegf Hctor Hrun Halg Hreg Hcls.
  rewrite config_run in Hcfg. simpl in Hcfg.
  apply getitem_of_lookup in Hmodel, Hegf, Halg.
  destruct s as [a l]. simpl in Hinit. unfold initialized in Hinit. subst a.
  unfold calculate_predictions. unfold bind at 1. rewrite config_run, Hcfg.
  unfold select_embedding_model, select_prediction_model.
  destruct musicnn; run_statements.
Qed.

Lemma unlisted_algorithm_is_unbound_witness :
  calculate_predictions Studio.world "mood" Studio.ready =
    (Raise (UnboundLocalError "prediction_model"),
     mkState (self Studio.ready)
       (EvEmbed Demo.samples ::
        EvMusiCNN ("./models/" ++ "msd-musicnn-1.pb") "model/dense/BiasAdd" ::
        EvOpen config_path "r" :: log Studio.ready)).
Proof.
  refine (unlisted_algorithm_is_unbound Studio.world "mood" Studio.ready
            "song.mp3" Demo.samples
            (Demo.fields "musicnn" "ranking" "msd-musicnn-1.pb"
                         "mood_happy-msd-musicnn-1.pb")
            true "msd-musicnn-1.pb" (PStr "ranking")
            (fun a => Ret [a]) [Demo.samples] _ _ _ _ _ _ _ _ _).
  - vm_compute. reflexivity.
  - vm_compute. reflexivity.
  - vm_compute. reflexivity.
  - vm_compute. reflexivity.
  - reflexivity.
  - reflexivity.
  - vm_compute. reflexivity.
  - reflexivity.
  - reflexivity.
Defined.

(** X4.  Nothing is cached between calls: a call of [calculate_predictions]
    whose graphs load and whose embedding model runs opens the configuration
    file, loads the embedding graph, runs it on the audio, loads the
    prediction graph and runs it on the embeddings, in this order, and
    returns what the prediction model gives. *)
Theorem predictions_trace w f s path samples (d : gmap string pyval)
    (musicnn regression : bool) egf pgf em emb pm :
  initialized (self s) path samples ->
  fst (__get_audio_feature_config w f s) = Ret (PDict d) ->
  d !! "model" = Some (PStr (if musicnn then "musicnn" else "effnet")) ->
  d !! "embedding_graph_filename" = Some (PStr egf) ->
  d !! "algorithm" =
    Some (PStr (if regression then "regression" else "classifier")) ->
  d !! "prediction_graph_filename" = Some (PStr pgf) ->
  (if musicnn
   then TensorflowPredictMusiCNN w ("./models/" ++ egf) "model/dense/BiasAdd"
   else TensorflowPredictEffnetDiscogs w ("./models/" ++ egf) "PartitionedCall:1")
    = Ret em ->
  em samples = Ret emb ->
  TensorflowPredict2D w ("./models/" ++ pgf)
    (if regression then "model/Identity" else "model/Softmax") = Ret pm ->
  calculate_predictions w f s =
    (pm emb,
     mkState (self s)
       (EvPredict emb ::
        EvPredict2D ("./models/" ++ pgf)
          (if regression then "model/Identity" else "model/Softmax") ::
        EvEmbed samples ::
        (if musicnn
         then EvMusiCNN ("./models/" ++ egf) "model/dense/BiasAdd"
         else EvEffnetDiscogs ("./models/" ++ egf) "PartitionedCall:1") ::
        EvOpen config_path "r" :: log s)).
Proof.
  intros Hinit Hcfg Hmodel Hegf Halg Hpgf Hctor Hrun Hpm.
  rewrite config_run in Hcfg. simpl in Hcfg.
  apply getitem_of_lookup in Hmodel, Hegf, Halg, Hpgf.
  destruct s as [a l]. simpl in Hinit. unfold initialized in Hinit. subst a.
  unfold calculate_predictions. unfold bind at 1. rewrite config_run, Hcfg.
  unfold select_embedding_model, select_prediction_model.
  destruct musicnn, regression; run_statements.
Qed.

Lemma predictions_trace_witness :
  calculate_predictions Demo.world "arousal_valence" Demo.ready =
    (Ret Demo.identity_out,
     mkState (self Demo.ready)
       (EvPredict [Demo.samples] ::
        EvPredict2D ("./models/" ++ "deam-msd-musicnn-2.pb") "model/Identity" ::
        EvEmbed Demo.samples ::
        EvMusiCNN ("./models/" ++ "msd-musicnn-1.pb") "model/dense/BiasAdd" ::
        EvOpen config_path "r" :: log Demo.ready)).
Proof.
  refine (predictions_trace Demo.world "arousal_valence" Demo.ready
            "song.mp3" Demo.samples
            (Demo.fields "musicnn" "regression" "msd-musicnn-1.pb"
                         "deam-msd-musicnn-2.pb")
            true true "msd-musicnn-1.pb" "deam-msd-musicnn-2.pb"
            (fun a => Ret [a]) [Demo.samples]
            (fun _ => Ret Demo.identity_out) _ _ _ _ _ _ _ _ _).
  - vm_compute. reflexivity.
  - vm_compute. reflexivity.
  - vm_compute. reflexivity.
  - vm_compute. reflexivity.
  - vm_compute. reflexivity.
  - vm_compute. reflexivity.
  - reflexivity.
  - reflexivity.
  - reflexivity.
Defined.

(* ===================================================================== *)
(** ** Further properties: how the metric fails and what the category does *)
(* ===================================================================== *)

Lemma in_bounds_dec P cat : in_bounds P cat \/ ~ in_bounds P cat.
Proof. unfold in_bounds. lia. Qed.

Lemma normalize_out_of_bounds P cat :
  ~ in_bounds P cat -> normalize_index (ncols P) cat = Raise IndexError.
Proof.
  unfold in_bounds, normalize_index. intros Hout.
  destruct (Z.leb_spec 0 cat), (Z.ltb_spec cat (Z.of_nat (ncols P))),
    (Z.leb_spec (- Z.of_nat (ncols P)) cat), (Z.ltb_spec cat 0);
    simpl; try reflexivity; exfalso; apply Hout; lia.
Qed.

Lemma aggregate_regression P cat :
  aggregate (PStr "regression") P cat = Ret (MTuple (np_mean_axis0 P)).
Proof. reflexivity. Qed.

Lemma aggregate_classifier_out P cat :
  ~ in_bounds P cat -> aggregate (PStr "classifier") P cat = Raise IndexError.
Proof.
  intros Hout. unfold aggregate, column. simpl py_eq_str. cbv iota.
  rewrite (normalize_out_of_bounds _ _ Hout). reflexivity.
Qed.

(** The metric re-raises what [calculate_predictions] raises. *)
Lemma metric_raise_of_predictions w f cat s e :
  fst (calculate_predictions w f s) = Raise e ->
  fst (calculate_prediction_metric w f cat s) = Raise e.
Proof.
  intros H. destruct (config_lookup w f) as [cfg | e0] eqn:Hcfg.
  - unfold calculate_prediction_metric, bind.
    pose proof (predictions_after_config w f s) as Hsame.
    rewrite config_run in *. rewrite Hcfg. simpl in Hsame. rewrite H in Hsame.
    destruct (calculate_predictions w f (mkState _ _)) as [[P | e1] s2];
      simpl in Hsame; [discriminate | injection Hsame as ->; reflexivity].
  - rewrite (predictions_raise_of_config _ _ _ _ Hcfg) in H.
    injection H as <-. apply metric_raise_of_config, Hcfg.
Qed.

(** X5.  [calculate_prediction_metric] raises in two ways only: it re-raises
    what [calculate_predictions] raises, unchanged, or, for a classifier
    whose predictions were computed, it raises [IndexError] because the
    category is outside the prediction columns. *)
Theorem metric_raises_iff w f cat s e :
  fst (calculate_prediction_metric w f cat s) = Raise e <->
  fst (calculate_predictions w f s) = Raise e \/
  (exists cfg P,
      fst (__get_audio_feature_config w f s) = Ret cfg /\
      py_getitem cfg "algorithm" = Ret (PStr "classifier") /\
      fst (calculate_predictions w f s) = Ret P /\
      ~ in_bounds P cat /\ e = IndexError).
Proof.
  rewrite config_run. simpl. split.
  - intros H.
    destruct (calculate_predictions w f s) as [[P | e1] s1] eqn:HP; simpl.
    + right. pose proof (f_equal fst HP) as HP'. simpl in HP'.
      destruct (predictions_returns_inv _ _ _ _ HP')
        as (cfg & alg & Hcfg & Halg & Hcase).
      rewrite (metric_run w f cat s cfg P alg Hcfg HP' Halg) in H.
      destruct Hcase as [-> | ->].
      * rewrite aggregate_regression in H. discriminate H.
      * exists cfg, P. destruct (in_bounds_dec P cat) as [Hin | Hout].
        -- rewrite (aggregate_classifier _ _ Hin) in H. discriminate H.
        -- rewrite (aggregate_classifier_out _ _ Hout) in H.
           injection H as <-. auto.
    + left. pose proof (f_equal fst HP) as HP'. simpl in HP'.
      rewrite (metric_raise_of_predictions _ _ _ _ _ HP') in H.
      injection H as <-. reflexivity.
  - intros [H | (cfg & P & Hcfg & Halg & HP & Hout & ->)].
    + apply metric_raise_of_predictions, H.
    + rewrite (metric_run w f cat s cfg P _ Hcfg HP Halg).
      apply aggregate_classifier_out, Hout.
Qed.

Lemma metric_raises_iff_witness :
  fst (calculate_prediction_metric Demo.world "danceability" 2 Demo.ready) =
    Raise IndexError.
Proof.
  apply (proj2 (metric_raises_iff Demo.world "danceability" 2 Demo.ready IndexError)).
  right.
  exists (Demo.entry "effnet" "classifier" "discogs-effnet-bs64-1.pb"
                     "danceability-discogs-effnet-1.pb"), Demo.softmax_out.
  split; [vm_compute; reflexivity |].
  split; [vm_compute; reflexivity |].
  split; [vm_compute; reflexivity |].
  split; [| reflexivity].
  unfold in_bounds. simpl. lia.
Defined.

(** X6.  For a regression feature the category argument has no effect:
    any two categories, in or out of the range of the prediction columns,
    give the same outcome. *)
Theorem regression_ignores_category w f s cfg cat cat' :
  fst (__get_audio_feature_config w f s) = Ret cfg ->
  py_getitem cfg "algorithm" = Ret (PStr "regression") ->
  fst (calculate_prediction_metric w f cat s) =
  fst (calculate_prediction_metric w f cat' s).
Proof.
  intros Hcfg Halg. rewrite config_run in Hcfg. simpl in Hcfg.
  destruct (calculate_predictions w f s) as [[P | e] s1] eqn:HP;
    pose proof (f_equal fst HP) as HP'; simpl in HP'.
  - rewrite (metric_run w f cat s cfg P _ Hcfg HP' Halg).
    rewrite (metric_run w f cat' s cfg P _ Hcfg HP' Halg). reflexivity.
  - rewrite (metric_raise_of_predictions _ _ cat _ _ HP').
    rewrite (metric_raise_of_predictions _ _ cat' _ _ HP'). reflexivity.
Qed.

Lemma regression_ignores_category_witness :
  fst (calculate_prediction_metric Demo.world "arousal_valence" 0 Demo.ready) =
  fst (calculate_prediction_metric Demo.world "arousal_valence" 7 Demo.ready).
Proof.
  refine (regression_ignores_category Demo.world "arousal_valence" Demo.ready
            (Demo.entry "musicnn" "regression" "msd-musicnn-1.pb"
                        "deam-msd-musicnn-2.pb") 0 7 _ _).
  - vm_compute. reflexivity.
  - vm_compute. reflexivity.
Defined.

Lemma aggregate_negative_index alg P cat :
  (0 <= cat < Z.of_nat (ncols P))%Z ->
  aggregate alg P (cat - Z.of_nat (ncols P)) = aggregate alg P cat.
Proof.
  intros Hcat. unfold aggregate, column.
  assert (H1 : in_bounds P cat) by (unfold in_bounds; lia).
  assert (H2 : in_bounds P (cat - Z.of_nat (ncols P)))
    by (unfold in_bounds; lia).
  rewrite (normalize_in_bounds _ _ H1), (normalize_in_bounds _ _ H2).
  replace (resolved_column P (cat - Z.of_nat (ncols P)))
    with (resolved_column P cat); [reflexivity |].
  unfold resolved_column.
  destruct (Z.ltb_spec cat 0), (Z.ltb_spec (cat - Z.of_nat (ncols P)) 0);
    f_equal; lia.
Qed.

(** X7.  A negative category counts columns from the end: when the
    predictions are computed, category [c - ncols] gives the same outcome
    as category [c], for every [c] from 0 up to the last column. *)
Theorem negative_category_counts_from_end w f s P cat :
  fst (calculate_predictions w f s) = Ret P ->
  (0 <= cat < Z.of_nat (ncols P))%Z ->
  fst (calculate_prediction_metric w f (cat - Z.of_nat (ncols P)) s) =
  fst (calculate_prediction_metric w f cat s).
Proof.
  intros HP Hcat.
  destruct (predictions_returns_inv _ _ _ _ HP)
    as (cfg & alg & Hcfg & Halg & _).
  rewrite (metric_run w f _ s cfg P alg Hcfg HP Halg).
  rewrite (metric_run w f _ s cfg P alg Hcfg HP Halg).
  apply aggregate_negative_index, Hcat.
Qed.

Lemma negative_category_counts_from_end_witness :
  fst (calculate_prediction_metric Demo.world "danceability" (1 - 2) Demo.ready) =
  fst (calculate_prediction_metric Demo.world "danceability" 1 Demo.ready).
Proof.
  refine (negative_category_counts_from_end Demo.world "danceability"
            Demo.ready Demo.softmax_out 1 _ _).
  - vm_compute. reflexivity.
  - simpl. lia.
Defined.

(** In a row that sums to one, at most one of the two entries exceeds 1/2. *)
Lemma two_class_counts (rs : list (list Q)) :
  Forall (fun r => exists x y, r = [x; y] /\ Qeq (x + y) 1) rs ->
  length (List.filter
            (fun r => if Qlt_le_dec (1 # 2) (nth 0 r 0%Q) then true else false) rs) +
  length (List.filter
            (fun r => if Qlt_le_dec (1 # 2) (nth 1 r 0%Q) then true else false) rs)
  <= length rs.
Proof.
  induction 1 as [| r rs (x & y & -> & Hsum) _ IH]; simpl; [lia |].
  destruct (Qlt_le_dec (1 # 2) x) as [Hx | Hx],
           (Qlt_le_dec (1 # 2) y) as [Hy | Hy]; simpl; try lia.
  exfalso. lra.
Qed.

Lemma ratio_sum_at_most_one (a b : Z) (n : nat) :
  (a + b <= Z.of_nat (S n))%Z ->
  (inject_Z a / inject_Z (Z.of_nat (S n)) +
   inject_Z b / inject_Z (Z.of_nat (S n)) <= 1)%Q.
Proof.
  intros Hle.
  assert (Hn : (0 < inject_Z (Z.of_nat (S n)))%Q)
    by (rewrite <- (Zlt_Qlt 0); lia).
  unfold Qdiv. rewrite <- Qmult_plus_distr_l.
  apply Qle_shift_div_r; [exact Hn |].
  rewrite Qmult_1_l, <- inject_Z_plus, <- Zle_Qle. exact Hle.
Qed.



(* ===================================================================== *)
(** ** Further properties: the configuration file is read again and again *)
(* ===================================================================== *)

Lemma emits_silent {A} Q (m : M A) : (forall s, snd (m s) = s) -> emits Q m.
Proof. intros H s. rewrite H. exists []. split; [reflexivity | constructor]. Qed.

Lemma emits_ret {A} Q (a : A) : emits Q (ret a).
Proof. apply emits_silent. reflexivity. Qed.

Lemma emits_raise {A} Q (e : exn) : emits Q (@raise A e).
Proof. apply emits_silent. reflexivity. Qed.

Lemma emits_lift {A} Q (o : outcome A) : emits Q (lift o).
Proof. apply emits_silent. reflexivity. Qed.

Lemma emits_local {A} Q name (v : option A) : emits Q (local name v).
Proof. destruct v; [apply emits_ret | apply emits_raise]. Qed.

Lemma emits_getattr {A} Q name (field : analyzer -> option A) :
  emits Q (getattr name field).
Proof.
  apply emits_silent. intros s. unfold getattr, bind, get_self.
  destruct (field (self s)); reflexivity.
Qed.

Lemma emits_emit (Q : event -> Prop) e : Q e -> emits Q (emit e).
Proof.
  intros He s. exists [e]. split; [reflexivity |].
  constructor; [exact He | constructor].
Qed.

Lemma emits_bind {A B} Q (m : M A) (k : A -> M B) :
  emits Q m -> (forall a, emits Q (k a)) -> emits Q (bind m k).
Proof.
  intros Hm Hk s. unfold bind.
  destruct (Hm s) as (new & Hlog & HQ).
  destruct (m s) as [[a | e] s1]; simpl in *.
  - destruct (Hk a s1) as (new' & Hlog' & HQ').
    exists (new' ++ new). split.
    + rewrite Hlog', Hlog. apply app_assoc.
    + apply Forall_app. split; assumption.
  - exists new. auto.
Qed.

Ltac emits_tac :=
  repeat first
    [ apply emits_ret | apply emits_raise | apply emits_lift
    | apply emits_local | apply emits_getattr
    | apply emits_emit; reflexivity
    | apply emits_bind; [| intros ?]
    | match goal with |- emits _ (if ?b then _ else _) => destruct b end ].

Lemma opens_none new :
  Forall (fun e => is_open e = false) new -> opens new = 0.
Proof.
  unfold opens. induction 1 as [| e l He _ IH]; simpl; [reflexivity |].
  rewrite He. exact IH.
Qed.

(** Past the lookup, [calculate_predictions] opens no file of its own. *)
Lemma predictions_opens_once w f s :
  exists new,
    log (snd (calculate_predictions w f s)) =
      new ++ EvOpen config_path "r" :: log s /\
    opens new = 0.
Proof.
  unfold calculate_predictions. unfold bind at 1. rewrite config_run.
  destruct (config_lookup w f) as [cfg | e].
  - match goal with
    | |- context [snd (?m (mkState ?a ?l))] =>
        assert (Hm : emits (fun e => is_open e = false) m)
          by (unfold select_embedding_model, select_prediction_model; emits_tac);
        destruct (Hm (mkState a l)) as (new & Hlog & HQ)
    end.
    exists new. split; [exact Hlog | apply opens_none, HQ].
  - exists []. split; reflexivity.
Qed.

(** X9.  Every call of [calculate_prediction_metric] whose lookup succeeds
    opens the configuration file twice, once itself and once more inside
    [calculate_predictions]; when the lookup fails it has opened it once. *)
Theorem metric_opens_config_twice w f cat s :
  (returns (fst (__get_audio_feature_config w f s)) ->
   exists new,
     log (snd (calculate_prediction_metric w f cat s)) = new ++ log s /\
     opens new = 2) /\
  (raises (fst (__get_audio_feature_config w f s)) ->
   log (snd (calculate_prediction_metric w f cat s)) =
     EvOpen config_path "r" :: log s).
Proof.
  unfold calculate_prediction_metric.
  split; intros H; unfold bind at 1; rewrite config_run in *; simpl in H;
    destruct (config_lookup w f) as [cfg | e]; try destruct H;
    [| reflexivity].
  destruct (predictions_opens_once w f
              (mkState (self s) (EvOpen config_path "r" :: log s)))
    as (new & Hlog & Hopens). simpl in Hlog.
  exists (new ++ [EvOpen config_path "r"; EvOpen config_path "r"]). split.
  - unfold bind.
    destruct (calculate_predictions w f (mkState _ _)) as [[P | e] s2];
      simpl in *.
    + unfold lift. destruct (py_getitem cfg "algorithm"); simpl;
        rewrite Hlog, <- app_assoc; reflexivity.
    + rewrite Hlog, <- app_assoc. reflexivity.
  - unfold opens in *. rewrite List.filter_app, List.length_app.
    rewrite Hopens. reflexivity.
Qed.

Lemma metric_opens_config_twice_witness :
  exists new,
    log (snd (calculate_prediction_metric Demo.world "danceability" 0 Demo.ready)) =
      new ++ log Demo.ready /\
    opens new = 2.
Proof.
  apply (proj1 (metric_opens_config_twice Demo.world "danceability" 0 Demo.ready)).
  vm_compute. exact I.
Defined.

(* ===================================================================== *)
(** ** Further properties: metadata *)
(* ===================================================================== *)

(** One descriptor without a value is enough to abort the loop. *)
Lemma metadata_loop_index_error (p : pool) names :
  (forall d, In d names -> In d (descriptorNames p)) ->
  (exists d, In d names /\ pool_getitem p d = Ret []) ->
  forall acc s, metadata_loop p names acc s = (Raise IndexError, s).
Proof.
  induction names as [| d0 rest IH]; intros Hsub (d & Hd & Hget) acc s.
  - destruct Hd.
  - rewrite metadata_loop_cons.
    destruct (last_component_total d0) as [k ->].
    destruct (pool_getitem_in p d0) as (vals & Hget0 & _);
      [apply Hsub; left; reflexivity |].
    rewrite Hget0. destruct vals as [| v vs]; [reflexivity |]. simpl.
    apply IH.
    + intros d' Hd'. apply Hsub. right. exact Hd'.
    + exists d. split; [| exact Hget].
      destruct Hd as [-> | Hd]; [| exact Hd].
      rewrite Hget in Hget0. discriminate Hget0.
Qed.

Lemma get_metadata_run w s path p :
  __file_path (self s) = Some path ->
  MetadataReader w path = Ret p ->
  get_metadata w s =
  metadata_loop p (descriptorNames p) ∅
    (mkState (self s) (EvMetadataReader path :: log s)).
Proof.
  intros Hpath Hread. unfold get_metadata. unfold bind at 1.
  rewrite (getattr_run _ _ _ path Hpath).
  unfold bind, emit, lift. simpl. rewrite Hread. reflexivity.
Qed.

(** X10.  [get_metadata] returns a dictionary when every descriptor of the
    pool has at least one value, and raises [IndexError] as soon as one
    descriptor has an empty value list. *)
Theorem metadata_needs_values w s path (p : pool) :
  __file_path (self s) = Some path ->
  MetadataReader w path = Ret p ->
  List.NoDup (descriptorNames p) ->
  (Forall (fun e => snd e <> []) p -> returns (fst (get_metadata w s))) /\
  (Exists (fun e => snd e = []) p ->
   fst (get_metadata w s) = Raise IndexError).
Proof.
  intros Hpath Hread Hnd. rewrite (get_metadata_run w s path p Hpath Hread).
  split.
  - intros Hvals.
    destruct (metadata_loop_total p (descriptorNames p) Hvals (fun _ H => H) ∅
                (mkState (self s) (EvMetadataReader path :: log s)))
      as [m ->].
    exact I.
  - intros Hex. apply List.Exists_exists in Hex.
    destruct Hex as ([d vals] & Hin & Hempty). simpl in Hempty. subst vals.
    rewrite metadata_loop_index_error; [reflexivity | auto |].
    exists d. split.
    + unfold descriptorNames. apply in_map_iff. exists (d, []). auto.
    + apply in_split in Hin. destruct Hin as (before & after & ->).
      apply pool_getitem_nodup, Hnd.
Qed.

Lemma metadata_needs_values_witness :
  fst (get_metadata Studio.world Studio.ready) = Raise IndexError.
Proof.
  refine (proj2 (metadata_needs_values Studio.world Studio.ready "song.mp3"
                   Studio.tags _ _ _) _).
  - reflexivity.
  - reflexivity.
  - simpl. repeat (constructor; [simpl; intuition discriminate |]). constructor.
  - apply List.Exists_cons_tl. apply List.Exists_cons_hd. reflexivity.
Defined.

Lemma split_without_separator sep k :
  ~ In sep (chars k) -> split sep k = [k].
Proof.
  induction k as [| c k IH]; simpl; intros Hk; [reflexivity |].
  destruct (Ascii.eqb_spec c sep) as [-> | Hc]; [exfalso; auto |].
  rewrite IH by tauto. reflexivity.
Qed.

Lemma split_with_suffix sep p k :
  ~ In sep (chars k) ->
  exists l, l <> [] /\ split sep (p ++ String sep k)%string = l ++ [k].
Proof.
  intros Hk. induction p as [| c p (l & Hl & IH)]; simpl.
  - rewrite Ascii.eqb_refl, (split_without_separator _ _ Hk).
    exists [EmptyString]. split; [discriminate | reflexivity].
  - rewrite IH. destruct (Ascii.eqb c sep).
    + exists (EmptyString :: l). split; [discriminate | reflexivity].
    + destruct l as [| h t]; [congruence |].
      exists (String c h :: t). split; [discriminate | reflexivity].
Qed.

(** X11.  The key under which [get_metadata] files a descriptor is computed
    as follows: a name without a dot is its own key, and a name of the form
    [prefix.k] with no dot in [k] has key [k], whatever the prefix. *)
Theorem key_of_descriptor :
  (forall d, ~ In "."%char (chars d) -> py_last (split "." d) = Ret d) /\
  (forall p k, ~ In "."%char (chars k) ->
               py_last (split "." (p ++ "." ++ k)%string) = Ret k).
Proof.
  split.
  - intros d Hd. rewrite (split_without_separator _ _ Hd). reflexivity.
  - intros p k Hk. destruct (split_with_suffix "." p k Hk) as (l & _ & Hl).
    replace (p ++ "." ++ k)%string with (p ++ String "." k)%string
      by reflexivity.
    rewrite Hl. apply py_last_snoc.
Qed.

(** X12.  When no two descriptors end in the same component, nothing is
    lost: the result holds the first value of every descriptor, under that
    descriptor's last component. *)
Theorem metadata_lossless_without_collisions w s path (p : pool) :
  __file_path (self s) = Some path ->
  MetadataReader w path = Ret p ->
  List.NoDup (descriptorNames p) ->
  Forall (fun e => snd e <> []) p ->
  (forall d1 d2 k, In d1 (descriptorNames p) -> In d2 (descriptorNames p) ->
                   py_last (split "." d1) = Ret k ->
                   py_last (split "." d2) = Ret k -> d1 = d2) ->
  exists m : gmap string string,
    fst (get_metadata w s) = Ret m /\
    forall d v vs, In (d, v :: vs) p ->
      exists k, py_last (split "." d) = Ret k /\ m !! k = Some v.
Proof.
  intros Hpath Hread Hnd Hvals Hinj.
  rewrite (get_metadata_run w s path p Hpath Hread).
  destruct (metadata_loop_total p (descriptorNames p) Hvals (fun _ H => H) ∅
              (mkState (self s) (EvMetadataReader path :: log s)))
    as [m Hm].
  exists m. split; [rewrite Hm; reflexivity |].
  intros d v vs Hin.
  destruct (last_component_total d) as [k Hk]. exists k. split; [exact Hk |].
  destruct (in_split _ _ Hin) as (before & after & Hp).
  assert (Hnames : descriptorNames p =
                   descriptorNames before ++ d :: descriptorNames after).
  { rewrite Hp. unfold descriptorNames. rewrite map_app. reflexivity. }
  rewrite Hnames in Hm.
  eapply metadata_loop_last_wins; [exact Hk | | | exact Hm].
  - rewrite Hp. apply pool_getitem_nodup. rewrite <- Hp. exact Hnd.
  - intros d' Hd' Hk'.
    assert (d' = d).
    { apply (Hinj d' d k); try assumption.
      - rewrite Hnames. apply in_or_app. right. right. exact Hd'.
      - rewrite Hnames. apply in_or_app. right. left. reflexivity. }
    subst d'. rewrite Hnames in Hnd.
    apply List.NoDup_remove_2 in Hnd. apply Hnd.
    apply in_or_app. right. exact Hd'.
Qed.

Lemma metadata_lossless_without_collisions_witness :
  exists m : gmap string string,
    fst (get_metadata Studio.world Studio.live) = Ret m /\
    forall d v vs, In (d, v :: vs) Studio.live_tags ->
      exists k, py_last (split "." d) = Ret k /\ m !! k = Some v.
Proof.
  refine (metadata_lossless_without_collisions Studio.world Studio.live
            "live.flac" Studio.live_tags _ _ _ _ _).
  - reflexivity.
  - reflexivity.
  - simpl. repeat (constructor; [simpl; intuition discriminate |]). constructor.
  - repeat constructor; discriminate.
  - simpl. intros d1 d2 k H1 H2.
    destruct H1 as [<- | [<- | [<- | []]]], H2 as [<- | [<- | [<- | []]]];
      vm_compute; congruence.
Defined.

(* ===================================================================== *)
(** ** Further properties: calls do not influence one another *)
(* ===================================================================== *)

Lemma perform_self w c s : self (perform w c s) = self s.
Proof.
  destruct c; simpl.
  - apply (readonly_file_path s).
  - apply (readonly_get_metadata w s).
  - apply (readonly_predictions w _ s).
  - apply (readonly_metric w _ _ s).
Qed.

Lemma run_calls_self w cs s : self (run_calls w cs s) = self s.
Proof.
  revert s. induction cs as [| c cs IH]; intros s; simpl; [reflexivity |].
  rewrite IH. apply perform_self.
Qed.

Lemma answer_of_self w c s s' :
  self s' = self s -> answer w c s' = answer w c s.
Proof.
  intros H. destruct c; simpl; f_equal.
  - apply (readonly_file_path s), H.
  - apply (readonly_get_metadata w s), H.
  - apply (readonly_predictions w _ s), H.
  - apply (readonly_metric w _ _ s), H.
Qed.

(** X13.  What a public call returns or raises does not depend on the
    calls made before it: after any sequence of public calls, failed ones
    included, every call has the outcome it would have had at once. *)
Theorem answers_do_not_depend_on_history w cs c s :
  answer w c (run_calls w cs s) = answer w c s.
Proof. apply answer_of_self, run_calls_self. Qed.

(* ===================================================================== *)
(** ** Further properties: a failing embedding stage *)
(* ===================================================================== *)

(** X14.  When loading the embedding graph fails, or the embedding model
    fails on the audio, [calculate_predictions] raises that exception
    unchanged and never loads a prediction graph. *)
Theorem embedding_failure_propagates w f s path samples
    (d : gmap string pyval) (musicnn : bool) egf e :
  initialized (self s) path samples ->
  fst (__get_audio_feature_config w f s) = Ret (PDict d) ->
  d !! "model" = Some (PStr (if musicnn then "musicnn" else "effnet")) ->
  d !! "embedding_graph_filename" = Some (PStr egf) ->
  and_then
    (if musicnn
     then TensorflowPredictMusiCNN w ("./models/" ++ egf) "model/dense/BiasAdd"
     else TensorflowPredictEffnetDiscogs w ("./models/" ++ egf) "PartitionedCall:1")
    (fun embedding_model => embedding_model samples) = Raise e ->
  exists new,
    calculate_predictions w f s = (Raise e, mkState (self s) (new ++ log s)) /\
    Forall (fun ev => match ev with EvPredict2D _ _ => False | _ => True end) new.
Proof.
  intros Hinit Hcfg Hmodel Hegf Hfail.
  rewrite config_run in Hcfg. simpl in Hcfg.
  apply getitem_of_lookup in Hmodel, Hegf.
  destruct s as [a l]. simpl in Hinit. unfold initialized in Hinit. subst a.
  unfold calculate_predictions. unfold bind at 1. rewrite config_run, Hcfg.
  unfold select_embedding_model.
  destruct musicnn; simpl in Hfail.
  - destruct (TensorflowPredictMusiCNN w _ _) as [em | e0] eqn:Hctor;
      simpl in Hfail.
    + exists [EvEmbed samples;
              EvMusiCNN ("./models/" ++ egf) "model/dense/BiasAdd";
              EvOpen config_path "r"].
      split; [| repeat constructor].
      run_statements. rewrite Hfail. reflexivity.
    + injection Hfail as ->.
      exists [EvMusiCNN ("./models/" ++ egf) "model/dense/BiasAdd";
              EvOpen config_path "r"].
      split; [| repeat constructor].
      run_statements. rewrite Hctor. reflexivity.
  - destruct (TensorflowPredictEffnetDiscogs w _ _) as [em | e0] eqn:Hctor;
      simpl in Hfail.
    + exists [EvEmbed samples;
              EvEffnetDiscogs ("./models/" ++ egf) "PartitionedCall:1";
              EvOpen config_path "r"].
      split; [| repeat constructor].
      run_statements. rewrite Hfail. reflexivity.
    + injection Hfail as ->.
      exists [EvEffnetDiscogs ("./models/" ++ egf) "PartitionedCall:1";
              EvOpen config_path "r"].
      split; [| repeat constructor].
      run_statements. rewrite Hctor. reflexivity.
Qed.

Lemma embedding_failure_propagates_witness :
  exists new,
    calculate_predictions Studio.world "danceability" Studio.ready =
      (Raise (External "./models/discogs-effnet-bs64-1.pb"),
       mkState (self Studio.ready) (new ++ log Studio.ready)) /\
    Forall (fun ev => match ev with EvPredict2D _ _ => False | _ => True end) new.
Proof.
  refine (embedding_failure_propagates Studio.world "danceability" Studio.ready
            "song.mp3" Demo.samples
            (Demo.fields "effnet" "classifier" "discogs-effnet-bs64-1.pb"
                         "danceability-discogs-effnet-1.pb")
            false "discogs-effnet-bs64-1.pb"
            (External "./models/discogs-effnet-bs64-1.pb") _ _ _ _ _).
  - vm_compute. reflexivity.
  - vm_compute. reflexivity.
  - vm_compute. reflexivity.
  - vm_compute. reflexivity.
  - reflexivity.
Defined.
